(** * data_scraping: a shallow embedding of WebScraper, APIFetcher and DataCleaner

    The three classes of the package are glue code over [requests], [bs4],
    [urllib], [json], [re], [nltk] and [pandas].  The embedding keeps the
    control flow of every method (loops, method dispatch, try/except) and
    the effects a caller can observe (network calls, robots.txt queries,
    printed lines, mutation of dictionaries and data frames that the caller
    still holds).  What the libraries compute is taken through type classes:
    one class per library, one method per library call of the source. *)

From stdpp Require Import gmap strings list fin_maps pretty.
From Stdlib Require Import ZArith.

#[local] Open Scope Z_scope.
#[local] Set Warnings "-register-all".

(** ** Python values, exceptions and the effect monad *)

Module Py.

(** What [json.loads] and [response.json()] return; [JNull] is [None]. *)
Inductive Json : Type :=
  | JNull
  | JBool (b : bool)
  | JNum (n : Z)
  | JStr (s : string)
  | JList (items : list Json)
  | JDict (fields : list (string * Json)).

(** Values stored in a [params] dictionary. *)
Inductive PVal : Type :=
  | PStr (s : string)
  | PInt (n : Z).

#[export] Instance PVal_eq_dec : EqDecision PVal.
Proof. solve_decision. Defined.

Abbreviation dict := (gmap string PVal).

(** The exception classes the package raises, catches or lets through. *)
Inductive ExnClass : Type :=
  | RequestException
  | HTTPError
  | ConnectionError
  | Timeout
  | RequestsJSONDecodeError   (* requests.exceptions.JSONDecodeError *)
  | JSONDecodeError           (* json.JSONDecodeError *)
  | ValueError
  | PermissionError
  | TypeError
  | AttributeError
  | KeyError.

#[export] Instance ExnClass_eq_dec : EqDecision ExnClass.
Proof. solve_decision. Defined.

Record Exn : Type := mkExn { exn_class : ExnClass; exn_msg : string }.

#[export] Instance Exn_eq_dec : EqDecision Exn.
Proof. solve_decision. Defined.

(** [isinstance(e, requests.RequestException)]. *)
Definition is_RequestException (e : Exn) : bool :=
  match exn_class e with
  | RequestException | HTTPError | ConnectionError | Timeout
  | RequestsJSONDecodeError => true
  | _ => false
  end.


(** How a call ends: it returns, an exception propagates, or the budget
    of loop iterations given to an unbounded [while] ran out. *)
Inductive Outcome (A : Type) : Type :=
  | Ret (a : A)
  | Raise (e : Exn)
  | Diverge.
Arguments Ret {A} a.
Arguments Raise {A} e.
Arguments Diverge {A}.

(** Effects persist when an exception propagates: the state comes back
    with every outcome. *)
Definition M (S A : Type) : Type := S → Outcome A * S.

#[export] Instance M_ret {S} : MRet (M S) := λ A a s, (Ret a, s).

#[export] Instance M_bind {S} : MBind (M S) := λ A B k c s,
  match c s with
  | (Ret a, s') => k a s'
  | (Raise e, s') => (Raise e, s')
  | (Diverge, s') => (Diverge, s')
  end.

Definition raise {S A} (e : Exn) : M S A := λ s, (Raise e, s).

Definition diverge {S A} : M S A := λ s, (Diverge, s).

(** [try: body  except <catches> as e: handler e]. *)
Definition try_except {S A} (body : M S A) (catches : Exn → bool)
    (handler : Exn → M S A) : M S A := λ s,
  match body s with
  | (Raise e, s') => if catches e then handler e s' else (Raise e, s')
  | r => r
  end.

(** A computation without effects. *)
Definition lift {S A} (o : Outcome A) : M S A := λ s, (o, s).

Definition gets {S A} (f : S → A) : M S A := λ s, (Ret (f s), s).

Definition modify {S} (f : S → S) : M S unit := λ s, (Ret tt, f s).

(** Truthiness of a string. *)
Definition truthy (s : string) : bool :=
  match s with EmptyString => false | String _ _ => true end.

End Py.

Export Py.

(** ** The libraries *)

Module Net.

Inductive Body : Type :=
  | BodyRaw (s : string)
  | BodyForm (d : dict).

(** One call of [requests.get/post/put/delete], with [params] as the
    dictionary reads when the call is made. *)
Record Request : Type := mkRequest {
  req_method : string;
  req_url : string;
  req_headers : gmap string string;
  req_cookies : option (gmap string string);
  req_params : option dict;
  req_data : option Body;
  req_json : option Json
}.

Record Response : Type := mkResponse {
  status_code : Z;
  resp_headers : gmap string string;
  text : string;
  links : gmap string string
}.

Inductive NetOutcome : Type :=
  | NetResp (r : Response)
  | NetExn (e : Exn).

Inductive Event : Type :=
  | EvPolicy (user_agent url : string)   (* robot_parser.can_fetch *)
  | EvHttp (r : Request).                (* a network call *)

Definition requests_of (t : list Event) : list Request :=
  omap (λ ev, match ev with EvHttp r => Some r | EvPolicy _ _ => None end) t.

Abbreviation loc := positive.

(** The part of the world the fetchers act on: dictionaries the caller
    holds a reference to, the calls made so far, the lines printed. *)
Record World : Type := mkWorld {
  heap : gmap loc dict;
  trace : list Event;
  stdout : list string
}.

(** [requests]: the remote side answers a request knowing the requests
    made before it; [raise_for_status] decides which responses are HTTP
    errors. *)
Class RequestsLib : Type := {
  send : list Request → Request → NetOutcome;
  raise_for_status : Response → option Exn
}.

(** [json.loads]; [None] stands for a decode error. *)
Class JsonLib : Type := {
  json_loads : string → option Json
}.

(** [urllib.parse.urljoin]. *)
Class UrlLib : Type := {
  urljoin : string → string → string
}.

Record Tag : Type := mkTag {
  tag_name : string;
  tag_attrs : gmap string string;
  tag_string : option string   (* [.string] *)
}.

(** [bs4]: parsing, [select_one(selector)] and
    [find_all(name, type=...)]. *)
Class Bs4Lib : Type := {
  Soup : Type;
  BeautifulSoup : string → Soup;
  select_one : Soup → string → option Tag;
  find_all_typed : Soup → string → string → list Tag
}.

Definition printed (line : string) (w : World) : World :=
  {| heap := heap w; trace := trace w; stdout := stdout w ++ [line] |}.

Definition logged (ev : Event) (w : World) : World :=
  {| heap := heap w; trace := trace w ++ [ev]; stdout := stdout w |}.

Definition with_heap (h : gmap loc dict) (w : World) : World :=
  {| heap := h; trace := trace w; stdout := stdout w |}.

Definition print (line : string) : M World unit := modify (printed line).

Definition log (ev : Event) : M World unit := modify (logged ev).

(** A dictionary the program creates: a new object. *)
Definition new_dict (d : dict) : M World loc := λ w,
  let l := fresh (dom (heap w)) in
  (Ret l, with_heap (<[l := d]> (heap w)) w).

Definition read_dict (l : loc) : M World dict :=
  gets (λ w, default ∅ (heap w !! l)).

(** [d[key] = v] on the object at [l]. *)
Definition setitem (l : loc) (key : string) (v : PVal) : M World unit :=
  modify (λ w, with_heap (alter (insert key v) l (heap w)) w).

(** An optional dictionary argument as the library reads it at a call. *)
Definition snapshot (p : option loc) : M World (option dict) :=
  match p with
  | None => mret None
  | Some l => d ← read_dict l; mret (Some d)
  end.

(** The call itself: it is recorded, and the remote side answers. *)
Definition request `{RequestsLib} (r : Request) : M World Response :=
  past ← gets (λ w, requests_of (trace w));
  _ ← log (EvHttp r);
  match send past r with
  | NetResp resp => mret resp
  | NetExn e => raise e
  end.

(** [response.raise_for_status()]. *)
Definition check_status `{RequestsLib} (resp : Response) : M World unit :=
  match raise_for_status resp with
  | Some e => raise e
  | None => mret tt
  end.

(** [response.json()]. *)
Definition response_json `{JsonLib} (resp : Response) : M World Json :=
  match json_loads (text resp) with
  | Some v => mret v
  | None => raise (mkExn RequestsJSONDecodeError "Expecting value")
  end.

(** [list(v)], as [all_data.extend(v)] iterates its argument. *)
Definition iterate (v : Json) : Outcome (list Json) :=
  match v with
  | JList items => Ret items
  | JDict fields => Ret (JStr <$> fields.*1)
  | JStr s => Ret ((λ c, JStr (String c EmptyString)) <$> String.list_ascii_of_string s)
  | JNull => Raise (mkExn TypeError "'NoneType' object is not iterable")
  | JBool _ => Raise (mkExn TypeError "'bool' object is not iterable")
  | JNum _ => Raise (mkExn TypeError "'int' object is not iterable")
  end.

End Net.

Export Net.

(** ** api_fetcher.py *)

Module Api.

Record APIFetcher : Type := mkAPIFetcher {
  base_url : string;
  headers : gmap string string
}.

(** [__init__]: [self.headers = headers or {}]. *)
Definition __init__ (base_url : string) (headers : option (gmap string string))
    : APIFetcher :=
  mkAPIFetcher base_url (default ∅ headers).

Section Methods.
Context `{RequestsLib, JsonLib}.

Definition _make_request (self : APIFetcher) (url : string)
    (params : option loc) (method : string)
    (data : option Body) (json : option Json) : M World Response :=
  try_except
    (response ←
       (if String.eqb method "GET" then
          p ← snapshot params;
          request (mkRequest "GET" url (headers self) None p None None)
        else if String.eqb method "POST" then
          p ← snapshot params;
          request (mkRequest "POST" url (headers self) None p data json)
        else if String.eqb method "PUT" then
          p ← snapshot params;
          request (mkRequest "PUT" url (headers self) None p data json)
        else if String.eqb method "DELETE" then
          p ← snapshot params;
          request (mkRequest "DELETE" url (headers self) None p None None)
        else
          raise (mkExn ValueError ("Unsupported HTTP method: " +:+ method)));
     _ ← check_status response;
     mret response)
    is_RequestException
    (λ e, _ ← print ("An error occurred: " +:+ exn_msg e); raise e).

Definition fetch_data (self : APIFetcher) (endpoint : string)
    (params : option loc) (method : string)
    (data : option Body) (json : option Json) : M World Json :=
  let url := base_url self +:+ "/" +:+ endpoint in
  response ← _make_request self url params method data json;
  response_json response.

(** [params = params or {}]: [None] and an empty dictionary both give
    way to a new dictionary; a non-empty one is kept, the caller's
    object itself. *)
Definition params_or_new (params : option loc) : M World loc :=
  match params with
  | None => new_dict ∅
  | Some l =>
      d ← read_dict l;
      if decide (d = ∅) then new_dict ∅ else mret l
  end.

(** The [while True] loop; [fuel] bounds the number of iterations. *)
Fixpoint fetch_paginated_loop (fuel : nat) (self : APIFetcher)
    (endpoint : string) (params : option loc) (method : string)
    (data : option Body) (json : option Json) (next_page_param : string)
    (page : Z) (all_data : list Json) : M World (list Json) :=
  match fuel with
  | O => diverge
  | S fuel' =>
      l ← params_or_new params;
      _ ← setitem l next_page_param (PInt page);
      response ← _make_request self (base_url self +:+ "/" +:+ endpoint)
                   (Some l) method data json;
      json_data ← response_json response;
      items ← lift (iterate json_data);
      let all_data := all_data ++ items in
      if bool_decide (is_Some (links response !! "next")) then
        fetch_paginated_loop fuel' self endpoint (Some l) method data json
          next_page_param (page + 1) all_data
      else
        mret all_data
  end.

Definition fetch_paginated_data (fuel : nat) (self : APIFetcher)
    (endpoint : string) (params : option loc) (method : string)
    (data : option Body) (json : option Json) (next_page_param : string)
    (start_page : Z) : M World (list Json) :=
  fetch_paginated_loop fuel self endpoint params method data json
    next_page_param start_page [].

Definition fetch_headers (self : APIFetcher) (endpoint : string)
    (params : option loc) : M World (gmap string string) :=
  let url := base_url self +:+ "/" +:+ endpoint in
  response ← _make_request self url params "HEAD" None None;
  mret (resp_headers response).

Definition fetch_status_code (self : APIFetcher) (endpoint : string)
    (params : option loc) : M World Z :=
  let url := base_url self +:+ "/" +:+ endpoint in
  response ← _make_request self url params "GET" None None;
  mret (status_code response).

(** The [while attempt < retries] loop.  [attempt] only grows, so
    [retries - attempt] iterations are enough: [budget] is set to that
    by [fetch_data_with_retry] and never runs out. *)
Fixpoint retry_loop (budget : nat) (self : APIFetcher) (endpoint : string)
    (params : option loc) (method : string) (data : option Body)
    (json : option Json) (retries attempt : Z) : M World Json :=
  if attempt <? retries then
    match budget with
    | O => diverge
    | S budget' =>
        try_except
          (fetch_data self endpoint params method data json)
          is_RequestException
          (λ e,
             _ ← print ("Attempt " +:+ pretty (attempt + 1) +:+ " failed: "
                        +:+ exn_msg e);
             let attempt := attempt + 1 in
             if attempt =? retries then raise e
             else retry_loop budget' self endpoint params method data json
                    retries attempt)
    end
  else
    mret JNull.

Definition fetch_data_with_retry (self : APIFetcher) (endpoint : string)
    (params : option loc) (method : string) (data : option Body)
    (json : option Json) (retries : Z) : M World Json :=
  retry_loop (Z.to_nat retries) self endpoint params method data json
    retries 0.

End Methods.

End Api.

(** ** web_scraper.py *)

Module Web.

(** [robot_parser] is the [RobotFileParser] that [__init__] builds and
    fills by reading robots.txt; its [can_fetch] is a function of the
    user agent and the URL from then on. *)
Record WebScraper : Type := mkWebScraper {
  base_url : string;
  headers : gmap string string;
  cookies : gmap string string;
  user_agent : string;
  robot_parser : string → string → bool
}.

Section Methods.
Context `{RequestsLib, JsonLib, UrlLib, Bs4Lib}.

Definition _is_allowed_by_robots (self : WebScraper) (url : string)
    : M World bool :=
  _ ← log (EvPolicy (user_agent self) url);
  mret (robot_parser self (user_agent self) url).

(** [params] is only read by this class: it is taken by value. *)
Definition fetch_page (self : WebScraper) (url : string)
    (params : option dict) (method : string) : M World string :=
  let full_url := urljoin (base_url self) url in
  allowed ← _is_allowed_by_robots self full_url;
  if negb allowed then
    raise (mkExn PermissionError
             ("Fetching the URL '" +:+ full_url +:+
              "' is disallowed by the site's robots.txt file."))
  else
    response ←
      (if String.eqb method "GET" then
         request (mkRequest "GET" full_url (headers self)
                    (Some (cookies self)) params None None)
       else if String.eqb method "POST" then
         request (mkRequest "POST" full_url (headers self)
                    (Some (cookies self)) None (BodyForm <$> params) None)
       else
         raise (mkExn ValueError ("Unsupported HTTP method: " +:+ method)));
    _ ← check_status response;
    mret (text response).

Definition parse_html (self : WebScraper) (html : string) : Soup :=
  BeautifulSoup html.

Definition scrape_data {A} (self : WebScraper) (url : string)
    (parser_func : Soup → A) (params : option dict) (method : string)
    : M World A :=
  html ← fetch_page self url params method;
  let soup := parse_html self html in
  mret (parser_func soup).

(** The [while url] loop; [fuel] bounds the number of iterations.  A
    [Tag] is always truthy, so [next_page and next_page.get('href')]
    is the truthiness of the attribute. *)
Fixpoint handle_pagination_loop {Item} (fuel : nat) (self : WebScraper)
    (url : string) (parser_func : Soup → list Item)
    (params : option dict) (method : string)
    (next_page_selector : string) (all_data : list Item)
    : M World (list Item) :=
  if truthy url then
    match fuel with
    | O => diverge
    | S fuel' =>
        html ← fetch_page self url params method;
        let soup := parse_html self html in
        let data := parser_func soup in
        let all_data := all_data ++ data in
        match select_one soup next_page_selector with
        | Some next_page =>
            match tag_attrs next_page !! "href" with
            | Some href =>
                if truthy href then
                  let url := urljoin (base_url self) href in
                  handle_pagination_loop fuel' self url parser_func params
                    method next_page_selector all_data
                else mret all_data
            | None => mret all_data
            end
        | None => mret all_data
        end
    end
  else
    mret all_data.

Definition handle_pagination {Item} (fuel : nat) (self : WebScraper)
    (url : string) (parser_func : Soup → list Item)
    (params : option dict) (method : string)
    (next_page_selector : string) : M World (list Item) :=
  handle_pagination_loop fuel self url parser_func params method
    next_page_selector [].




End Methods.

End Web.

(** ** The fragment of [re] the package uses *)

Module Re.

(** A Python [str]: its code points. *)
Abbreviation str := (list N).

Definition of_string (s : string) : str :=
  Ascii.N_of_ascii <$> String.list_ascii_of_string s.

Inductive atom : Type :=
  | Chr (c : N)               (* a literal character *)
  | Dot                       (* [.]: anything but a newline *)
  | NotIn (set : N → bool).   (* [[^...]] *)

Inductive item : Type :=
  | One (a : atom)
  | LazyStar (a : atom).      (* [a*?] *)

Definition atom_matches (a : atom) (c : N) : bool :=
  match a with
  | Chr d => N.eqb c d
  | Dot => negb (N.eqb c 10)
  | NotIn set => negb (set c)
  end.

(** A lazy star [a*?] followed by the rest of the pattern, [rest]: try
    the rest first, and only take one more character when it fails. *)
Fixpoint lazy_star (a : atom) (rest : str → option nat) (s : str)
    : option nat :=
  match rest s with
  | Some n => Some n
  | None =>
      match s with
      | c :: s' => if atom_matches a c then S <$> lazy_star a rest s' else None
      | [] => None
      end
  end.

(** Backtracking match of the pattern at the head of [s]: the length of
    the match the engine finds first. *)
Fixpoint match_len (p : list item) (s : str) {struct p} : option nat :=
  match p with
  | [] => Some O
  | One a :: p' =>
      match s with
      | c :: s' => if atom_matches a c then S <$> match_len p' s' else None
      | [] => None
      end
  | LazyStar a :: p' => lazy_star a (match_len p') s
  end.

(** [re.sub(p, '', s)] for a pattern whose matches are never empty (both
    patterns of the package begin with a single character): scan from the
    left; where the pattern matches, leave the match out and go on after
    it ([skip] counts the characters of the match still to pass);
    elsewhere keep the character. *)
Fixpoint sub_go (p : list item) (skip : nat) (s : str) : str :=
  match s with
  | [] => []
  | c :: s' =>
      match skip with
      | S k => sub_go p k s'
      | O =>
          match match_len p s with
          | Some (S n) => sub_go p n s'
          | _ => c :: sub_go p O s'
          end
      end
  end.

Definition sub (p : list item) (s : str) : str := sub_go p O s.

End Re.

Export Re.

(** ** data_cleaner.py *)

Module Cleaner.

(** [str.lower] and the character classes [\s] and [\d] of a [str]
    pattern come from the Unicode tables of the interpreter. *)
Class StrLib : Type := {
  str_lower : str → str;
  isspace : N → bool;
  isdecimal : N → bool
}.

(** [nltk]. *)
Class NltkLib : Type := {
  stopwords_words : string → list str;
  word_tokenize : str → list str;
  PorterStemmer_stem : str → str;
  WordNetLemmatizer_lemmatize : str → str
}.

Record DataCleaner : Type := mkDataCleaner {
  stop_words : list str;
  stemmer : str → str;
  lemmatizer : str → str
}.

(** A cell of a data frame: text, a number, or a missing value. *)
Inductive Cell : Type :=
  | CStr (s : str)
  | CNum (n : Z)
  | CNaN.

#[export] Instance Cell_eq_dec : EqDecision Cell.
Proof. solve_decision. Defined.

(** A data frame: column labels, and the rows with their index label. *)
Record DataFrame : Type := mkDataFrame {
  columns : list string;
  rows : list (Z * list Cell)
}.

(** The data frames alive; a variable of the caller holds a location. *)
Abbreviation Frames := (gmap loc DataFrame).

Definition new_frame (f : DataFrame) : M Frames loc := λ h,
  let l := fresh (dom h) in (Ret l, <[l := f]> h).

Definition read_frame (l : loc) : M Frames DataFrame :=
  gets (λ h, default (mkDataFrame [] []) (h !! l)).

Definition write_frame (l : loc) (f : DataFrame) : M Frames unit :=
  modify (λ h, <[l := f]> h).

(** Position of a column label. *)
Fixpoint get_loc (name : string) (cols : list string) : option nat :=
  match cols with
  | [] => None
  | c :: cols' => if String.eqb c name then Some O else S <$> get_loc name cols'
  end.

(** [' '.join(tokens)]. *)
Fixpoint join_space (tokens : list str) : str :=
  match tokens with
  | [] => []
  | [t] => t
  | t :: tokens' => t ++ 32%N :: join_space tokens'
  end.

Definition is_ascii_letter (c : N) : bool :=
  ((97 <=? c) && (c <=? 122) || (65 <=? c) && (c <=? 90))%N.

(** ['<.*?>'] *)
Definition tag_re : list item := [One (Chr 60); LazyStar Dot; One (Chr 62)].

Section Methods.
Context `{StrLib, NltkLib}.

Definition __init__ : DataCleaner :=
  mkDataCleaner (stopwords_words "english") PorterStemmer_stem
    WordNetLemmatizer_lemmatize.

Definition remove_html_tags (self : DataCleaner) (text : str) : str :=
  let clean := tag_re in
  Re.sub clean text.

(** [r'[^a-zA-Z\s]'] when [remove_digits] is false, [r'[^a-zA-Z\s\d]']
    when it is true. *)
Definition remove_special_characters (self : DataCleaner) (text : str)
    (remove_digits : bool) : str :=
  let pattern :=
    if negb remove_digits
    then [One (NotIn (λ c, is_ascii_letter c || isspace c))]
    else [One (NotIn (λ c, is_ascii_letter c || isspace c || isdecimal c))] in
  Re.sub pattern text.

Definition to_lowercase (self : DataCleaner) (text : str) : str :=
  str_lower text.

Definition remove_stopwords (self : DataCleaner) (text : str) : str :=
  let tokens := word_tokenize text in
  let filtered_tokens :=
    filter (λ word, str_lower word ∉ stop_words self) tokens in
  join_space filtered_tokens.

Definition stem_text (self : DataCleaner) (text : str) : str :=
  let tokens := word_tokenize text in
  let stemmed_tokens := stemmer self <$> tokens in
  join_space stemmed_tokens.

Definition lemmatize_text (self : DataCleaner) (text : str) : str :=
  let tokens := word_tokenize text in
  let lemmatized_tokens := lemmatizer self <$> tokens in
  join_space lemmatized_tokens.

Definition normalize_text (self : DataCleaner) (text : str)
    (remove_html remove_special_chars to_lower remove_stopwords_
       use_stemming use_lemmatization : bool) : str :=
  let text := if remove_html then remove_html_tags self text else text in
  let text := if remove_special_chars
              then remove_special_characters self text false else text in
  let text := if to_lower then to_lowercase self text else text in
  let text := if remove_stopwords_ then remove_stopwords self text else text in
  let text := if use_stemming then stem_text self text else text in
  let text := if use_lemmatization then lemmatize_text self text else text in
  text.

(** [normalize_text] on a cell, as the lambda of [clean_column] calls
    it: the first enabled step fails on a value that is not a [str];
    with every step disabled the value comes back as it is. *)
Definition normalize_cell (self : DataCleaner) (cell : Cell)
    (remove_html remove_special_chars to_lower remove_stopwords_
       use_stemming use_lemmatization : bool) : M Frames Cell :=
  match cell with
  | CStr text =>
      mret (CStr (normalize_text self text remove_html remove_special_chars
                    to_lower remove_stopwords_ use_stemming use_lemmatization))
  | _ =>
      if remove_html || remove_special_chars then
        raise (mkExn TypeError "expected string or bytes-like object")
      else if to_lower then
        raise (mkExn AttributeError "object has no attribute 'lower'")
      else if remove_stopwords_ || use_stemming || use_lemmatization then
        raise (mkExn TypeError "expected string or bytes-like object")
      else mret cell
  end.

(** [Series.apply(func)]: a new series, the cells in index order. *)
Fixpoint apply (func : Cell → M Frames Cell) (series : list Cell)
    : M Frames (list Cell) :=
  match series with
  | [] => mret []
  | c :: series' =>
      v ← func c;
      vs ← apply func series';
      mret (v :: vs)
  end.

(** [df.dropna()]: a new frame without the rows that miss a value. *)
Definition dropna_frame (f : DataFrame) : DataFrame :=
  mkDataFrame (columns f) (filter (λ r, CNaN ∉ r.2) (rows f)).

Definition dropna (df : loc) : M Frames loc :=
  f ← read_frame df;
  new_frame (dropna_frame f).

(** Rows in order, a row left out when an equal one came before. *)
Fixpoint keep_first (seen : list (list Cell)) (rs : list (Z * list Cell))
    : list (Z * list Cell) :=
  match rs with
  | [] => []
  | r :: rs' =>
      if decide (r.2 ∈ seen) then keep_first seen rs'
      else r :: keep_first (r.2 :: seen) rs'
  end.

(** [df.drop_duplicates()]: a new frame. *)
Definition drop_duplicates_frame (f : DataFrame) : DataFrame :=
  mkDataFrame (columns f) (keep_first [] (rows f)).

Definition drop_duplicates (df : loc) : M Frames loc :=
  f ← read_frame df;
  new_frame (drop_duplicates_frame f).

(** [df.reset_index(drop=True)]: a new frame, the rows labelled
    0, 1, 2, ... *)
Definition reset_index_frame (f : DataFrame) : DataFrame :=
  mkDataFrame (columns f) (imap (λ i r, (Z.of_nat i, r.2)) (rows f)).

Definition reset_index_drop (df : loc) : M Frames loc :=
  f ← read_frame df;
  new_frame (reset_index_frame f).

Definition clean_dataframe (self : DataCleaner) (df : loc) : M Frames loc :=
  d ← dropna df;
  reset_index_drop d.

(** [df[column_name]] raises [KeyError] for a label the frame does not
    have; the assignment replaces the column of the frame object. *)
Definition clean_column (self : DataCleaner) (df : loc) (column_name : string)
    (remove_html remove_special_chars to_lower remove_stopwords_
       use_stemming use_lemmatization : bool) : M Frames loc :=
  f ← read_frame df;
  match get_loc column_name (columns f) with
  | None => raise (mkExn KeyError column_name)
  | Some j =>
      let series := (λ r, default CNaN (r.2 !! j)) <$> rows f in
      new_series ←
        apply (λ text, normalize_cell self text remove_html
                         remove_special_chars to_lower remove_stopwords_
                         use_stemming use_lemmatization) series;
      _ ← write_frame df
            (mkDataFrame (columns f)
               (zip_with (λ r v, (r.1, <[j := v]> r.2)) (rows f) new_series));
      mret df
  end.

Definition drop_duplicate_rows (self : DataCleaner) (df : loc) : M Frames loc :=
  d ← drop_duplicates df;
  reset_index_drop d.

End Methods.

End Cleaner.

(** ** Vocabulary of the specification *)

Module Vocab.

(** The error a fetch ends with, if any: the transport raised, or
    [raise_for_status] rejected the response. *)
Definition fetch_error `{RequestsLib} (o : NetOutcome) : option Exn :=
  match o with
  | NetExn e => Some e
  | NetResp resp => raise_for_status resp
  end.

(** The value of an optional dictionary argument in a world. *)
Definition snap (params : option loc) (w : World) : option dict :=
  match params with
  | None => None
  | Some l => Some (default ∅ (heap w !! l))
  end.

(** The methods [APIFetcher._make_request] dispatches. *)
Definition supported (method : string) : bool :=
  String.eqb method "GET" || String.eqb method "POST" ||
  String.eqb method "PUT" || String.eqb method "DELETE".

Definition has_body (method : string) : bool :=
  String.eqb method "POST" || String.eqb method "PUT".

(** The call [APIFetcher._make_request] makes for a supported method,
    [p] being the value of [params] at that time. *)
Definition api_call (self : Api.APIFetcher) (url : string)
    (p : option dict) (method : string) (data : option Body)
    (json : option Json) : Request :=
  mkRequest method url (Api.headers self) None p
    (if has_body method then data else None)
    (if has_body method then json else None).

(** The methods [WebScraper.fetch_page] dispatches, and the call it
    makes: a POST sends [params] as the form data. *)
Definition web_supported (method : string) : bool :=
  String.eqb method "GET" || String.eqb method "POST".

Definition web_call `{UrlLib} (self : Web.WebScraper) (url : string)
    (params : option dict) (method : string) : Request :=
  let full_url := urljoin (Web.base_url self) url in
  mkRequest method full_url (Web.headers self) (Some (Web.cookies self))
    (if String.eqb method "POST" then None else params)
    (if String.eqb method "POST" then BodyForm <$> params else None)
    None.

(** The world after a fetch of [APIFetcher] that failed with [e]: the
    call is in the trace, and [_make_request] printed a line if it
    caught [e]. *)
Definition after_error (r : Request) (e : Exn) (w : World) : World :=
  if is_RequestException e
  then printed ("An error occurred: " +:+ exn_msg e) (logged (EvHttp r) w)
  else logged (EvHttp r) w.

(** The world after one failed attempt of the retry wrapper. *)
Definition after_attempt (r : Request) (attempt : Z) (e : Exn) (w : World)
    : World :=
  printed ("Attempt " +:+ pretty (attempt + 1) +:+ " failed: " +:+ exn_msg e)
    (after_error r e w).

(** What [params or {}] reads as: the caller's dictionary, or an empty
    one. *)
Definition base_dict (params : option loc) (w : World) : dict :=
  match params with
  | None => ∅
  | Some l => default ∅ (heap w !! l)
  end.

(** The dictionary object an iteration of [fetch_paginated_data] writes
    the page number into: the caller's when it is not empty, a new one
    otherwise. *)
Definition param_loc (params : option loc) (w : World) : loc :=
  match params with
  | None => fresh (dom (heap w))
  | Some l =>
      if decide (base_dict params w = ∅) then fresh (dom (heap w)) else l
  end.

(** The world once the iteration has written the page number. *)
Definition with_page (params : option loc) (key : string) (page : Z)
    (w : World) : World :=
  with_heap (<[param_loc params w := <[key := PInt page]> (base_dict params w)]>
               (heap w)) w.

(** The call of [fetch_paginated_data] for page [n]: the parameters are
    the base dictionary with [next_page_param] set to [n]. *)
Definition page_call (self : Api.APIFetcher) (endpoint : string)
    (d0 : dict) (method : string) (data : option Body) (json : option Json)
    (next_page_param : string) (n : Z) : Request :=
  api_call self (Api.base_url self +:+ "/" +:+ endpoint)
    (Some (<[next_page_param := PInt n]> d0)) method data json.

(** The calls for the pages [page], [page + 1], ..., [n] of them. *)
Fixpoint calls (call : Z → Request) (page : Z) (n : nat) : list Request :=
  match n with
  | O => []
  | S n' => call page :: calls call (page + 1) n'
  end.

(** A source of pages for the page-number strategy: the call for each
    page is answered by a response that passes [raise_for_status] and
    whose body is a JSON list; every response but the last carries a
    "next" link relation.  Nothing is asked of the lists: any of them
    may be empty. *)
Fixpoint paged_source `{RequestsLib, JsonLib} (past : list Request)
    (call : Z → Request) (page : Z) (pages : list (Response * list Json))
    : Prop :=
  match pages with
  | [] => False
  | p :: pages' =>
      send past (call page) = NetResp p.1 ∧
      raise_for_status p.1 = None ∧
      json_loads (text p.1) = Some (JList p.2) ∧
      match pages' with
      | [] => links p.1 !! "next" = None
      | _ :: _ =>
          is_Some (links p.1 !! "next") ∧
          paged_source (past ++ [call page]) call (page + 1) pages'
      end
  end.

(** The "next" link of a document: the [href] of the element the
    selector finds, when it has one that is not empty. *)
Definition next_href `{Bs4Lib} (soup : Soup) (selector : string)
    : option string :=
  match select_one soup selector with
  | Some next_page =>
      match tag_attrs next_page !! "href" with
      | Some href => if truthy href then Some href else None
      | None => None
      end
  | None => None
  end.

(** The same call made again and again fails with the errors [errs],
    in this order, each of them a [RequestException]. *)
Fixpoint fails_with `{RequestsLib} (past : list Request) (r : Request)
    (errs : list Exn) : Prop :=
  match errs with
  | [] => True
  | e :: errs' =>
      fetch_error (send past r) = Some e ∧ is_RequestException e = true ∧
      fails_with (past ++ [r]) r errs'
  end.

(** A source of pages for the link strategy, entered at [url]: each
    page is listed with the URL it is asked at; the URL is not empty and
    robots.txt allows it, the response passes [raise_for_status]; every
    page but the last has a "next" link, which leads to the page after
    it, and the last has none. *)
Fixpoint linked_source `{RequestsLib, UrlLib, Bs4Lib} (self : Web.WebScraper)
    (params : option dict) (method : string) (next_page_selector : string)
    (past : list Request) (url : string) (pages : list (string * Response))
    : Prop :=
  match pages with
  | [] => False
  | p :: pages' =>
      p.1 = url ∧ truthy url = true ∧
      Web.robot_parser self (Web.user_agent self)
        (urljoin (Web.base_url self) url) = true ∧
      send past (web_call self url params method) = NetResp p.2 ∧
      raise_for_status p.2 = None ∧
      match pages' with
      | [] => next_href (BeautifulSoup (text p.2)) next_page_selector = None
      | _ :: _ =>
          ∃ href,
            next_href (BeautifulSoup (text p.2)) next_page_selector = Some href ∧
            linked_source self params method next_page_selector
              (past ++ [web_call self url params method])
              (urljoin (Web.base_url self) href) pages'
      end
  end.


(** Where a tag that opens just before [s] closes: the length up to and
    including the first ['>'], when no newline comes before it. *)
Fixpoint closing (s : str) : option nat :=
  match s with
  | [] => None
  | c :: s' =>
      if N.eqb c 62 then Some 1%nat
      else if N.eqb c 10 then None
      else S <$> closing s'
  end.

Fixpoint closes (s : str) : bool :=
  match s with
  | [] => false
  | c :: s' =>
      if N.eqb c 62 then true else if N.eqb c 10 then false else closes s'
  end.

(** No ['<'] of the text is closed by a ['>'] on its line: the pattern
    ['<.*?>'] matches nowhere. *)
Fixpoint tag_free (s : str) : bool :=
  match s with
  | [] => true
  | c :: s' => (if N.eqb c 60 then negb (closes s') else true) && tag_free s'
  end.




(** The subsequence of ['<'], ['>'] and newline characters of a text. *)
Definition is_markup (c : N) : bool :=
  (N.eqb c 60 || N.eqb c 62 || N.eqb c 10)%N.

Definition markup (s : str) : str := List.filter is_markup s.

End Vocab.

Export Vocab.

(** ** Library instances for the examples *)

Module Doubles.

(** A remote side that plays a script: the n-th call gets the n-th
    outcome, whatever is asked; once the script is over, connections are
    refused.  HTTP errors are the 4xx and 5xx statuses. *)
Definition scripted (script : list NetOutcome) : RequestsLib := {|
  send past _ :=
    default (NetExn (mkExn ConnectionError "Connection refused"))
            (script !! length past);
  raise_for_status resp :=
    if (400 <=? status_code resp) && (status_code resp <? 600)
    then Some (mkExn HTTPError (pretty (status_code resp) +:+ " Error"))
    else None
|}.

(** A site: every URL has its fixed outcome. *)
Definition site (pages : list (string * NetOutcome)) : RequestsLib := {|
  send _ r :=
    default (NetExn (mkExn ConnectionError "Connection refused"))
            (snd <$> List.find (λ p, String.eqb p.1 (req_url r)) pages);
  raise_for_status resp :=
    if (400 <=? status_code resp) && (status_code resp <? 600)
    then Some (mkExn HTTPError (pretty (status_code resp) +:+ " Error"))
    else None
|}.

(** [json.loads] on the few documents the examples use; the other
    texts the examples send through it are not JSON. *)
Definition json_double : JsonLib := {|
  json_loads s :=
    snd <$> List.find (λ p, String.eqb p.1 s)
      [("[]", JList []);
       ("[1, 2]", JList [JNum 1; JNum 2]);
       ("[3]", JList [JNum 3]);
       ("{}", JDict []);
       ("true", JBool true);
       ("null", JNull);
       ("7", JNum 7)]
|}.

(** [urljoin] for a base without a path and references that are either
    absolute URLs or absolute paths. *)
Definition url_double : UrlLib := {|
  urljoin base url :=
    if String.prefix "http" url then url else base +:+ url
|}.

(** Documents are written as the list of their tags; the selector
    ["a.next"] finds the first [a] of class [next], any other selector
    the first tag of that name. *)
Definition bs4_double (docs : list (string * list Tag)) : Bs4Lib := {|
  Soup := list Tag;
  BeautifulSoup html :=
    default [] (snd <$> List.find (λ p, String.eqb p.1 html) docs);
  select_one soup selector :=
    List.find
      (λ t, if String.eqb selector "a.next"
            then String.eqb (tag_name t) "a" &&
                 bool_decide (tag_attrs t !! "class" = Some "next")
            else String.eqb (tag_name t) selector) soup;
  find_all_typed soup name type :=
    List.filter
      (λ t, String.eqb (tag_name t) name &&
            bool_decide (tag_attrs t !! "type" = Some type)) soup
|}.

(** Lower case on ASCII; blanks and digits of ASCII. *)
Definition lower_char (c : N) : N :=
  (if (65 <=? c) && (c <=? 90) then c + 32 else c)%N.

Definition str_double : Cleaner.StrLib := {|
  Cleaner.str_lower s := lower_char <$> s;
  Cleaner.isspace c := ((9 <=? c) && (c <=? 13) || (c =? 32))%N;
  Cleaner.isdecimal c := ((48 <=? c) && (c <=? 57))%N
|}.

(** Tokens are the blank-separated words; two stop words; stemming and
    lemmatization leave a word as it is. *)
Fixpoint words_go (cur : str) (s : str) : list str :=
  match s with
  | [] => if decide (cur = []) then [] else [cur]
  | c :: s' =>
      if (c =? 32)%N
      then (if decide (cur = []) then [] else [cur]) ++ words_go [] s'
      else words_go (cur ++ [c]) s'
  end.

Definition nltk_double : Cleaner.NltkLib := {|
  Cleaner.stopwords_words _ := [of_string "the"; of_string "a"];
  Cleaner.word_tokenize s := words_go [] s;
  Cleaner.PorterStemmer_stem w := w;
  Cleaner.WordNetLemmatizer_lemmatize w := w
|}.

Definition empty_world : World := mkWorld ∅ [] [].

Definition ok_response (body : string) (lnk : gmap string string) : Response :=
  mkResponse 200 ∅ body lnk.

Definition next_link (url : string) : gmap string string := {["next" := url]}.

(** An API client, and a site to scrape with a private corner. *)
Definition api : Api.APIFetcher := Api.__init__ "http://api" None.

Definition shop : Web.WebScraper :=
  Web.mkWebScraper "http://site" ∅ ∅ "WebScraperBot"
    (λ _ url, negb (String.prefix "http://site/private" url)).

Definition li (s : string) : Tag := mkTag "li" ∅ (Some s).

Definition a_next (href : string) : Tag :=
  mkTag "a" {["class" := "next"; "href" := href]} (Some "next").

Definition ld_script (body : string) : Tag :=
  mkTag "script" {["type" := "application/ld+json"]} (Some body).

(** Page 1 lists a and b and links to /p2; page 2 lists c and links
    nowhere; a third document carries three JSON-LD blocks, the second
    of them cut short. *)
Definition shop_docs : Bs4Lib :=
  bs4_double
    [("page1", [li "a"; li "b"; a_next "/p2"]);
     ("page2", [li "c"]);
     ("ld", [ld_script "[1, 2]"; ld_script "{oops"; ld_script "[3]"])].

Definition shop_site : RequestsLib :=
  site [("http://site/p1", NetResp (ok_response "page1" ∅));
        ("http://site/p2", NetResp (ok_response "page2" ∅))].


(** The texts of the [li] elements of a document. *)
Definition li_texts (soup : list Tag) : list string :=
  omap (λ t, if String.eqb (tag_name t) "li" then tag_string t else None) soup.

Definition refused : Exn := mkExn ConnectionError "Connection refused".

Definition timed_out : Exn := mkExn Timeout "Read timed out".

(** A frame with a text column and a number column; the second row
    misses a number, the third repeats the first. *)
Definition reviews : Cleaner.DataFrame :=
  Cleaner.mkDataFrame ["text"; "stars"]
    [(0, [Cleaner.CStr (of_string "<b>The Best</b>"); Cleaner.CNum 5]);
     (1, [Cleaner.CStr (of_string "A <i>bad</i> one"); Cleaner.CNaN]);
     (2, [Cleaner.CStr (of_string "<b>The Best</b>"); Cleaner.CNum 5])].

Definition cleaner : Cleaner.DataCleaner :=
  @Cleaner.__init__ nltk_double.

End Doubles.

(** ** web_scraper.py: the extractors *)

Module Extract.

(** [bs4], the queries of the extractors: [soup.select(selector)],
    [soup.find_all(name)], [tag.find_all(name)] and
    [tag.get_text(strip=True)]. *)
Class Bs4Query `{Bs4Lib} : Type := {
  select : Soup → string → list Tag;
  find_all : Soup → string → list Tag;
  tag_find_all : Tag → string → list Tag;
  get_text : Tag → string
}.

(** [tag.get(attr)] taken as a condition and as a value: the attribute
    when the tag has it and it is not empty. *)
Definition get_truthy (tag : Tag) (attr : string) : option string :=
  match tag_attrs tag !! attr with
  | Some v => if truthy v then Some v else None
  | None => None
  end.

(** [dict(pairs)]: a later pair replaces an earlier one with its key. *)
Definition dict_of {V} (pairs : list (string * V)) : gmap string V :=
  foldl (λ d kv, <[kv.1 := kv.2]> d) ∅ pairs.

Section Methods.
Context `{Bs4Query}.


Definition extract_text (self : Web.WebScraper) (soup : Soup)
    (css_selector : string) : list string :=
  get_text <$> select soup css_selector.

(** One turn of the loop over the [meta] tags. *)
Definition metadata_step (metadata : gmap string string) (meta : Tag)
    : gmap string string :=
  match get_truthy meta "name" with
  | Some name => <[name := default EmptyString (tag_attrs meta !! "content")]> metadata
  | None =>
      match get_truthy meta "property" with
      | Some property =>
          <[property := default EmptyString (tag_attrs meta !! "content")]> metadata
      | None => metadata
      end
  end.

Definition extract_metadata (self : Web.WebScraper) (soup : Soup)
    : gmap string string :=
  foldl metadata_step ∅ (find_all soup "meta").

(** One turn of the loop over the rows of the table. *)
Definition table_step (headers : list string) (rows : list (gmap string string))
    (tr : Tag) : list (gmap string string) :=
  let cells := get_text <$> tag_find_all tr "td" in
  if decide (length cells = length headers)
  then rows ++ [dict_of (zip headers cells)]
  else rows.

Definition extract_table (self : Web.WebScraper) (soup : Soup)
    (css_selector : string) : list (gmap string string) :=
  match select_one soup css_selector with
  | None => []
  | Some table =>
      let headers := get_text <$> tag_find_all table "th" in
      foldl (table_step headers) [] (drop 1 (tag_find_all table "tr"))
  end.

Definition extract_headings (self : Web.WebScraper) (soup : Soup)
    : gmap string (list string) :=
  foldl (λ headings level,
           let tag := "h" +:+ pretty level in
           <[tag := get_text <$> find_all soup tag]> headings)
        ∅ (seqZ 1 6).

Definition extract_paragraphs (self : Web.WebScraper) (soup : Soup)
    : list string :=
  get_text <$> find_all soup "p".

Definition extract_lists (self : Web.WebScraper) (soup : Soup)
    (css_selector : string) : list (list string) :=
  (λ list_element, get_text <$> tag_find_all list_element "li")
    <$> select soup css_selector.


End Methods.

End Extract.

(** ** data_cleaner.py: filling missing values *)

Module Fill.

(** [pandas]: [df.fillna(df.mean())], [df.fillna(df.median())] and
    [df.fillna(df.mode().iloc[0])], each of them a new frame or an error
    of the library. *)
Class PandasLib : Type := {
  fillna_mean : Cleaner.DataFrame → Outcome Cleaner.DataFrame;
  fillna_median : Cleaner.DataFrame → Outcome Cleaner.DataFrame;
  fillna_mode : Cleaner.DataFrame → Outcome Cleaner.DataFrame
}.

Section Methods.
Context `{PandasLib}.

Definition fill_missing_values (self : Cleaner.DataCleaner) (df : loc)
    (strategy : string) : M Cleaner.Frames loc :=
  if String.eqb strategy "mean" then
    f ← Cleaner.read_frame df;
    g ← lift (fillna_mean f);
    Cleaner.new_frame g
  else if String.eqb strategy "median" then
    f ← Cleaner.read_frame df;
    g ← lift (fillna_median f);
    Cleaner.new_frame g
  else if String.eqb strategy "mode" then
    f ← Cleaner.read_frame df;
    g ← lift (fillna_mode f);
    Cleaner.new_frame g
  else
    raise (mkExn ValueError ("Unsupported fill strategy: " +:+ strategy)).

End Methods.

End Fill.

(** ** Library instances for the examples of the extractors *)

Module Doubles2.

(** The tags of a document in document order; [select] and [find_all]
    find the tags of a name; the descendants of a tag are listed under
    its [id]; the text of a tag is its string. *)
Definition query_double (docs : list (string * list Tag))
    (inside : list (string * list Tag))
    : @Extract.Bs4Query (Doubles.bs4_double docs) :=
  @Extract.Build_Bs4Query (Doubles.bs4_double docs)
    (λ (soup : list Tag) selector,
       List.filter (λ t, String.eqb (tag_name t) selector) soup)
    (λ (soup : list Tag) name,
       List.filter (λ t, String.eqb (tag_name t) name) soup)
    (λ tag name,
       List.filter (λ t, String.eqb (tag_name t) name)
         (default []
            (tag_attrs tag !! "id" ≫= λ i,
             snd <$> List.find (λ p, String.eqb p.1 i) inside)))
    (λ tag, default EmptyString (tag_string tag)).

Definition anchor (href : option string) (s : string) : Tag :=
  mkTag "a" (match href with Some h => {["href" := h]} | None => ∅ end) (Some s).

Definition meta (attrs : gmap string string) : Tag := mkTag "meta" attrs None.

Definition cell (name : string) (s : string) : Tag := mkTag name ∅ (Some s).

Definition row (i : string) : Tag := mkTag "tr" {["id" := i]} None.

(** A page with four anchors (one without [href], one with an empty
    one), three [meta] tags (two of them for the same name), and a table
    of two columns with a header row, a full row and a short row. *)
Definition page_tags : list Tag :=
  [anchor (Some "/a") "A"; anchor None "B"; anchor (Some EmptyString) "C";
   anchor (Some "/d") "D";
   meta {["name" := "author"; "content" := "Ann"]};
   meta {["property" := "og:title"; "content" := "T"]};
   meta {["name" := "author"; "content" := "Bob"]};
   mkTag "table" {["id" := "t"]} None].

Definition page_inside : list (string * list Tag) :=
  [("t", [row "r0"; cell "th" "name"; cell "th" "qty";
          row "r1"; cell "td" "nut"; cell "td" "3";
          row "r2"; cell "td" "bolt"]);
   ("r0", [cell "th" "name"; cell "th" "qty"]);
   ("r1", [cell "td" "nut"; cell "td" "3"]);
   ("r2", [cell "td" "bolt"])].

Definition page_docs : Bs4Lib := Doubles.bs4_double [("page", page_tags)].

Definition page_query : @Extract.Bs4Query page_docs :=
  query_double [("page", page_tags)] page_inside.

(** A page that links to itself. *)
Definition loop_docs : Bs4Lib :=
  Doubles.bs4_double [("loop", [Doubles.li "x"; Doubles.a_next "/p1"])].

Definition loop_site : RequestsLib :=
  Doubles.site [("http://site/p1", NetResp (Doubles.ok_response "loop" ∅))].

(** An API whose every page carries a "next" link relation. *)
Definition endless_api : RequestsLib :=
  Doubles.site
    [("http://api/items",
      NetResp (Doubles.ok_response "[3]" (Doubles.next_link "more")))].

(** [fillna] that puts 0 where a value misses. *)
Definition fill_zero (f : Cleaner.DataFrame) : Outcome Cleaner.DataFrame :=
  Ret (Cleaner.mkDataFrame (Cleaner.columns f)
         ((λ r : Z * list Cleaner.Cell,
             (r.1, (λ c, match c with Cleaner.CNaN => Cleaner.CNum 0 | _ => c end)
                     <$> r.2)) <$> Cleaner.rows f)).

Definition pandas_double : Fill.PandasLib := {|
  Fill.fillna_mean := fill_zero;
  Fill.fillna_median := fill_zero;
  Fill.fillna_mode := fill_zero
|}.

End Doubles2.

(** ** Vocabulary of the further properties *)

Module Vocab2.

(** The key [extract_metadata] files a [meta] tag under: its [name] when
    it has one that is not empty, else its [property] when it has one
    that is not empty. *)
Definition meta_key (meta : Tag) : option string :=
  match Extract.get_truthy meta "name" with
  | Some name => Some name
  | None => Extract.get_truthy meta "property"
  end.

Definition meta_content (meta : Tag) : string :=
  default EmptyString (tag_attrs meta !! "content").

(** The characters [remove_special_characters] keeps. *)
Definition kept `{Cleaner.StrLib} (remove_digits : bool) (c : N) : bool :=
  Cleaner.is_ascii_letter c || Cleaner.isspace c ||
  (remove_digits && Cleaner.isdecimal c).

End Vocab2.

Export Vocab2.

(** * Properties *)

(** ** Stepping through the monad *)

Section MonadFacts.
Context {S A B : Type}.
Implicit Types (c : M S A) (k : A → M S B).

Lemma bind_unfold c k s :
  (c ≫= k) s =
    match c s with
    | (Ret a, s') => k a s'
    | (Raise e, s') => (Raise e, s')
    | (Diverge, s') => (Diverge, s')
    end.
Proof. reflexivity. Qed.

Lemma bind_ret c k s a s' : c s = (Ret a, s') → (c ≫= k) s = k a s'.
Proof. intros Hc. rewrite bind_unfold, Hc. reflexivity. Qed.

Lemma bind_raise c k s e s' :
  c s = (Raise e, s') → (c ≫= k) s = (Raise e, s').
Proof. intros Hc. rewrite bind_unfold, Hc. reflexivity. Qed.

Lemma bind_diverge c k s s' :
  c s = (Diverge, s') → (c ≫= k) s = (Diverge, s').
Proof. intros Hc. rewrite bind_unfold, Hc. reflexivity. Qed.

End MonadFacts.

(** Unfolds the primitives of the monad and computes. *)
Ltac run_monad :=
  unfold setitem, read_dict, new_dict, snapshot, request, check_status,
    response_json, log, print, gets, modify, raise, lift, diverge,
    mbind, M_bind, mret, M_ret in *;
  cbn.

(** ** APIFetcher: one request *)

Section ApiRequest.
Context `{RequestsLib, JsonLib}.
Implicit Types (self : Api.APIFetcher) (w : World).

Lemma requests_of_snoc t r : requests_of (t ++ [EvHttp r]) = requests_of t ++ [r].
Proof. unfold requests_of. rewrite omap_app. reflexivity. Qed.

Lemma requests_of_policy t ua url :
  requests_of (t ++ [EvPolicy ua url]) = requests_of t.
Proof. unfold requests_of. rewrite omap_app. cbn. apply app_nil_r. Qed.

Lemma requests_after_error r e w :
  requests_of (trace (after_error r e w)) = requests_of (trace w) ++ [r].
Proof.
  unfold after_error. destruct (is_RequestException e); cbn;
    apply requests_of_snoc.
Qed.

Lemma heap_after_error r e w : heap (after_error r e w) = heap w.
Proof. unfold after_error. destruct (is_RequestException e); reflexivity. Qed.

Lemma snapshot_eq params w : snapshot params w = (Ret (snap params w), w).
Proof. destruct params; reflexivity. Qed.

Lemma make_request_unsupported self url params method data json w :
  supported method = false →
  Api._make_request self url params method data json w =
    (Raise (mkExn ValueError ("Unsupported HTTP method: " +:+ method)), w).
Proof.
  unfold supported, Api._make_request, try_except. rewrite !bind_unfold.
  destruct (String.eqb method "GET"); [discriminate|].
  destruct (String.eqb method "POST"); [discriminate|].
  destruct (String.eqb method "PUT"); [discriminate|].
  destruct (String.eqb method "DELETE"); [discriminate|].
  reflexivity.
Qed.

Lemma make_request_sent self url params method data json w :
  supported method = true →
  let r := api_call self url (snap params w) method data json in
  Api._make_request self url params method data json w =
    match send (requests_of (trace w)) r with
    | NetExn e => (Raise e, after_error r e w)
    | NetResp resp =>
        match raise_for_status resp with
        | Some e => (Raise e, after_error r e w)
        | None => (Ret resp, logged (EvHttp r) w)
        end
    end.
Proof.
  unfold supported, api_call, has_body, Api._make_request, try_except,
    after_error.
  intros Hm.
  repeat
    (match goal with
     | |- context [if String.eqb method ?v then _ else _] =>
         destruct (String.eqb_spec method v) as [->|?]
     end;
     [ cbn [String.eqb Ascii.eqb Bool.eqb orb]; cbv zeta;
       rewrite !bind_unfold, snapshot_eq;
       unfold request, check_status, log, print, gets, modify, raise,
         mbind, M_bind, mret, M_ret;
       destruct (send _ _) as [resp|e];
       [ destruct (raise_for_status resp) as [e|];
         [destruct (is_RequestException e)|]; reflexivity
       | destruct (is_RequestException e); reflexivity ]
     | ]).
  discriminate.
Qed.

End ApiRequest.

(** ** APIFetcher: the retry wrapper *)

Section ApiRetry.
Context `{RequestsLib, JsonLib}.
Implicit Types (self : Api.APIFetcher) (w : World).

Lemma fetch_data_sent self endpoint params method data json w :
  supported method = true →
  let r := api_call self (Api.base_url self +:+ "/" +:+ endpoint)
             (snap params w) method data json in
  Api.fetch_data self endpoint params method data json w =
    match send (requests_of (trace w)) r with
    | NetExn e => (Raise e, after_error r e w)
    | NetResp resp =>
        match raise_for_status resp with
        | Some e => (Raise e, after_error r e w)
        | None =>
            match json_loads (text resp) with
            | Some v => (Ret v, logged (EvHttp r) w)
            | None => (Raise (mkExn RequestsJSONDecodeError "Expecting value"),
                       logged (EvHttp r) w)
            end
        end
    end.
Proof.
  intros Hm r. unfold Api.fetch_data. cbv zeta.
  rewrite bind_unfold, (make_request_sent _ _ _ _ _ _ _ Hm). cbv zeta.
  fold r. destruct (send _ _) as [resp|e]; [|reflexivity].
  destruct (raise_for_status resp); [reflexivity|].
  unfold response_json. destruct (json_loads _); reflexivity.
Qed.

Lemma fetch_data_fails self endpoint params method data json w e :
  supported method = true →
  let r := api_call self (Api.base_url self +:+ "/" +:+ endpoint)
             (snap params w) method data json in
  fetch_error (send (requests_of (trace w)) r) = Some e →
  Api.fetch_data self endpoint params method data json w =
    (Raise e, after_error r e w).
Proof.
  intros Hm r He. rewrite (fetch_data_sent _ _ _ _ _ _ _ Hm). cbv zeta.
  fold r. unfold fetch_error in He. destruct (send _ _) as [resp|e'].
  - rewrite He. reflexivity.
  - injection He as ->. reflexivity.
Qed.

Lemma snap_after_attempt params r attempt e w :
  snap params (after_attempt r attempt e w) = snap params w.
Proof.
  unfold snap, after_attempt. cbn. rewrite heap_after_error. reflexivity.
Qed.

Lemma requests_after_attempt r attempt e w :
  requests_of (trace (after_attempt r attempt e w)) =
    requests_of (trace w) ++ [r].
Proof. unfold after_attempt. cbn. apply requests_after_error. Qed.

(** One turn of the loop that ends in a [RequestException]. *)
Lemma retry_loop_step self endpoint params method data json retries
    attempt budget w e :
  supported method = true →
  let r := api_call self (Api.base_url self +:+ "/" +:+ endpoint)
             (snap params w) method data json in
  fetch_error (send (requests_of (trace w)) r) = Some e →
  is_RequestException e = true →
  attempt < retries →
  Api.retry_loop (S budget) self endpoint params method data json
    retries attempt w =
  if attempt + 1 =? retries then (Raise e, after_attempt r attempt e w)
  else Api.retry_loop budget self endpoint params method data json
         retries (attempt + 1) (after_attempt r attempt e w).
Proof.
  intros Hm r He Hreq Hlt. cbn.
  destruct (Z.ltb_spec attempt retries); [|lia].
  unfold try_except.
  rewrite (fetch_data_fails _ _ _ _ _ _ _ _ Hm He), Hreq.
  rewrite bind_unfold. cbn. fold r.
  destruct (attempt + 1 =? retries); reflexivity.
Qed.

Lemma retry_loop_returns self endpoint params method data json retries
    resp v errs :
  supported method = true →
  raise_for_status resp = None →
  json_loads (text resp) = Some v →
  ∀ attempt budget w,
    let r := api_call self (Api.base_url self +:+ "/" +:+ endpoint)
               (snap params w) method data json in
    fails_with (requests_of (trace w)) r errs →
    send (requests_of (trace w) ++ replicate (length errs) r) r = NetResp resp →
    attempt + Z.of_nat (length errs) < retries →
    (Z.to_nat (retries - attempt) ≤ budget)%nat →
    ∃ w', Api.retry_loop budget self endpoint params method data json
            retries attempt w = (Ret v, w') ∧
          requests_of (trace w') =
            requests_of (trace w) ++ replicate (S (length errs)) r.
Proof.
  intros Hm Hok Hv. induction errs as [|e errs IH];
    intros attempt budget w r Hfail Hsend Hlt Hbudget.
  - cbn in *. rewrite app_nil_r in Hsend.
    destruct budget as [|budget]; [lia|]. cbn.
    destruct (Z.ltb_spec attempt retries); [|lia].
    unfold try_except.
    rewrite (fetch_data_sent _ _ _ _ _ _ _ Hm). cbv zeta. fold r.
    rewrite Hsend, Hok, Hv.
    eexists; split; [reflexivity|]. cbn. apply requests_of_snoc.
  - cbn in Hfail, Hsend, Hlt. destruct Hfail as (He & Hreq & Hfail).
    destruct budget as [|budget]; [lia|].
    rewrite (retry_loop_step _ _ _ _ _ _ _ _ _ _ _ Hm He Hreq) by lia.
    fold r. destruct (Z.eqb_spec (attempt + 1) retries); [lia|].
    destruct (IH (attempt + 1) budget (after_attempt r attempt e w))
      as (w' & Hrun & Htrace).
    + rewrite snap_after_attempt, requests_after_attempt. exact Hfail.
    + rewrite snap_after_attempt, requests_after_attempt, <- app_assoc.
      exact Hsend.
    + lia.
    + lia.
    + exists w'. split; [exact Hrun|].
      rewrite Htrace, snap_after_attempt, requests_after_attempt,
        <- app_assoc.
      reflexivity.
Qed.

Lemma retry_loop_raises self endpoint params method data json retries
    errs e :
  supported method = true →
  ∀ attempt budget w,
    let r := api_call self (Api.base_url self +:+ "/" +:+ endpoint)
               (snap params w) method data json in
    fails_with (requests_of (trace w)) r (errs ++ [e]) →
    attempt + Z.of_nat (length (errs ++ [e])) = retries →
    (Z.to_nat (retries - attempt) ≤ budget)%nat →
    ∃ w', Api.retry_loop budget self endpoint params method data json
            retries attempt w = (Raise e, w') ∧
          requests_of (trace w') =
            requests_of (trace w) ++ replicate (length (errs ++ [e])) r.
Proof.
  intros Hm. induction errs as [|e0 errs IH];
    intros attempt budget w r Hfail Hlen Hbudget.
  - cbn in *. destruct Hfail as (He & Hreq & _).
    destruct budget as [|budget]; [lia|].
    rewrite (retry_loop_step _ _ _ _ _ _ _ _ _ _ _ Hm He Hreq) by lia.
    fold r. destruct (Z.eqb_spec (attempt + 1) retries); [|lia].
    eexists; split; [reflexivity|]. apply requests_after_attempt.
  - cbn in Hfail, Hlen. destruct Hfail as (He & Hreq & Hfail).
    rewrite length_app in Hlen. cbn in Hlen.
    destruct budget as [|budget]; [lia|].
    rewrite (retry_loop_step _ _ _ _ _ _ _ _ _ _ _ Hm He Hreq) by lia.
    fold r. destruct (Z.eqb_spec (attempt + 1) retries); [lia|].
    destruct (IH (attempt + 1) budget (after_attempt r attempt e0 w))
      as (w' & Hrun & Htrace).
    + rewrite snap_after_attempt, requests_after_attempt. exact Hfail.
    + rewrite length_app. cbn. lia.
    + lia.
    + exists w'. split; [exact Hrun|].
      rewrite Htrace, snap_after_attempt, requests_after_attempt,
        <- app_assoc.
      reflexivity.
Qed.

End ApiRetry.

(** ** APIFetcher: pagination by page number *)

Section ApiPagination.
Context `{RequestsLib, JsonLib}.
Implicit Types (self : Api.APIFetcher) (w : World).

Lemma alter_lookup_insert (h : gmap loc dict) l d (f : dict → dict) :
  h !! l = Some d → alter f l h = <[l := f d]> h.
Proof.
  intros Hl. apply map_eq. intros i. destruct (decide (i = l)) as [->|Hne].
  - rewrite lookup_alter_eq, Hl, lookup_insert_eq. reflexivity.
  - rewrite lookup_alter_ne, lookup_insert_ne by done. reflexivity.
Qed.

(** [params = params or {}] followed by [params[next_page_param] = page]. *)
Lemma prepare_params {A} params key page (k : loc → M World A) w :
  (Api.params_or_new params ≫= λ l, setitem l key (PInt page) ≫= λ _, k l) w =
    k (param_loc params w) (with_page params key page w).
Proof.
  unfold with_page, param_loc, base_dict, Api.params_or_new.
  destruct params as [l|]; run_monad.
  - destruct (decide (default ∅ (heap w !! l) = ∅)) as [He|Hne]; cbn.
    + unfold with_heap. cbn. rewrite He, alter_insert_eq. reflexivity.
    + destruct (heap w !! l) as [d|] eqn:Hl; [|done]. cbn.
      unfold with_heap. rewrite (alter_lookup_insert _ _ d) by done.
      reflexivity.
  - unfold with_heap. cbn. rewrite alter_insert_eq. reflexivity.
Qed.

Lemma snap_with_page params key page w :
  snap (Some (param_loc params w)) (with_page params key page w) =
    Some (<[key := PInt page]> (base_dict params w)).
Proof. unfold snap, with_page. cbn. rewrite lookup_insert_eq. reflexivity. Qed.

(** One turn of the [while True] loop. *)
Lemma paginated_loop_step fuel self endpoint params method data json key
    page acc w :
  let l := param_loc params w in
  let w1 := with_page params key page w in
  let r := api_call self (Api.base_url self +:+ "/" +:+ endpoint)
             (Some (<[key := PInt page]> (base_dict params w)))
             method data json in
  Api.fetch_paginated_loop (S fuel) self endpoint params method data json
    key page acc w =
  if supported method then
    match send (requests_of (trace w)) r with
    | NetExn e => (Raise e, after_error r e w1)
    | NetResp resp =>
        match raise_for_status resp with
        | Some e => (Raise e, after_error r e w1)
        | None =>
            match json_loads (text resp) with
            | None => (Raise (mkExn RequestsJSONDecodeError "Expecting value"),
                       logged (EvHttp r) w1)
            | Some v =>
                match iterate v with
                | Ret items =>
                    if bool_decide (is_Some (links resp !! "next")) then
                      Api.fetch_paginated_loop fuel self endpoint (Some l)
                        method data json key (page + 1) (acc ++ items)
                        (logged (EvHttp r) w1)
                    else (Ret (acc ++ items), logged (EvHttp r) w1)
                | Raise e => (Raise e, logged (EvHttp r) w1)
                | Diverge => (Diverge, logged (EvHttp r) w1)
                end
            end
        end
    end
  else
    (Raise (mkExn ValueError ("Unsupported HTTP method: " +:+ method)), w1).
Proof.
  intros l w1 r. cbn [Api.fetch_paginated_loop].
  rewrite prepare_params. fold l w1. rewrite bind_unfold.
  destruct (supported method) eqn:Hm.
  - rewrite (make_request_sent _ _ _ _ _ _ _ Hm). cbv zeta.
    unfold l, w1. rewrite snap_with_page. fold l w1 r.
    replace (trace w1) with (trace w) by reflexivity.
    destruct (send _ _) as [resp|e]; [|reflexivity].
    destruct (raise_for_status resp); [reflexivity|].
    rewrite bind_unfold. unfold response_json.
    destruct (json_loads (text resp)) as [v|]; [|reflexivity].
    cbn. rewrite bind_unfold. unfold lift.
    destruct (iterate v); try reflexivity.
    destruct (bool_decide _); reflexivity.
  - rewrite (make_request_unsupported _ _ _ _ _ _ _ Hm). reflexivity.
Qed.

Lemma base_dict_step params key page w ev :
  base_dict (Some (param_loc params w)) (logged ev (with_page params key page w)) =
    <[key := PInt page]> (base_dict params w).
Proof. unfold base_dict at 1. cbn. rewrite lookup_insert_eq. reflexivity. Qed.

Lemma requests_step params key page w r :
  requests_of (trace (logged (EvHttp r) (with_page params key page w))) =
    requests_of (trace w) ++ [r].
Proof. cbn. apply requests_of_snoc. Qed.

Lemma page_call_insert self endpoint d0 method data json key m n :
  page_call self endpoint (<[key := PInt m]> d0) method data json key n =
    page_call self endpoint d0 method data json key n.
Proof. unfold page_call. rewrite insert_insert_eq. reflexivity. Qed.

Lemma calls_ext call call' page n :
  (∀ m, call m = call' m) → calls call page n = calls call' page n.
Proof.
  intros Hext. revert page. induction n as [|n IH]; intros page; cbn.
  - reflexivity.
  - rewrite Hext, IH. reflexivity.
Qed.

Lemma paged_source_ext call call' pages :
  (∀ m, call m = call' m) →
  ∀ past page, paged_source past call page pages →
               paged_source past call' page pages.
Proof.
  intros Hext. induction pages as [|p pages IH]; intros past page; cbn.
  - done.
  - rewrite <- Hext. intros (Hs & Hok & Hj & Hrest).
    repeat split; try done.
    destruct pages as [|p' pages]; [done|].
    destruct Hrest as [Hnext Hrest]. split; [done|]. by apply IH.
Qed.

(** The loop on a source of pages: it fetches every page, once and in
    order, and returns the lists one after the other. *)
Lemma paginated_loop_pages self endpoint method data json key pages :
  supported method = true →
  ∀ fuel params page acc w,
    paged_source (requests_of (trace w))
      (page_call self endpoint (base_dict params w) method data json key)
      page pages →
    (length pages ≤ fuel)%nat →
    ∃ w', Api.fetch_paginated_loop fuel self endpoint params method data
            json key page acc w = (Ret (acc ++ concat pages.*2), w') ∧
          requests_of (trace w') =
            requests_of (trace w) ++
            calls (page_call self endpoint (base_dict params w) method data
                     json key) page (length pages).
Proof.
  intros Hm. induction pages as [|[resp items] pages IH];
    intros fuel params page acc w Hsrc Hfuel; [done|].
  destruct fuel as [|fuel]; [cbn in Hfuel; lia|].
  cbn in Hsrc. destruct Hsrc as (Hsend & Hok & Hjson & Hrest).
  rewrite paginated_loop_step, Hm. cbv zeta.
  unfold page_call in Hsend. rewrite Hsend, Hok, Hjson. cbn [iterate].
  destruct pages as [|p' pages].
  - rewrite Hrest. cbn. eexists; split.
    + rewrite app_nil_r. reflexivity.
    + apply requests_of_snoc.
  - destruct Hrest as [Hnext Hrest].
    rewrite bool_decide_eq_true_2 by done.
    destruct (IH fuel (Some (param_loc params w)) (page + 1) (acc ++ items)
                (logged
                   (EvHttp (page_call self endpoint (base_dict params w)
                              method data json key page))
                   (with_page params key page w)))
      as (w' & Hrun & Htrace).
    + rewrite requests_step, base_dict_step.
      eapply paged_source_ext; [|exact Hrest].
      intros m. symmetry. apply page_call_insert.
    + cbn in Hfuel |- *. lia.
    + exists w'. split.
      * etransitivity; [exact Hrun|].
        change (((resp, items) :: p' :: pages).*2)
          with (items :: (p' :: pages).*2).
        rewrite concat_cons, app_assoc. reflexivity.
      * rewrite Htrace, requests_step, base_dict_step, <- app_assoc.
        change (length ((resp, items) :: p' :: pages))
          with (S (length (p' :: pages))).
        cbn [calls]. f_equal. cbn [app]. f_equal.
        apply calls_ext. intros m. apply page_call_insert.
Qed.

(** Whatever the remote side does, the calls of a run are the calls for
    the pages [page], [page + 1], ... in this order, each with the page
    number in [next_page_param]. *)
Lemma paginated_loop_calls self endpoint method data json key fuel :
  ∀ params page acc w,
    ∃ n, requests_of (trace (Api.fetch_paginated_loop fuel self endpoint
                               params method data json key page acc w).2) =
           requests_of (trace w) ++
           calls (page_call self endpoint (base_dict params w) method data
                    json key) page n.
Proof.
  induction fuel as [|fuel IH]; intros params page acc w.
  - exists O. cbn. rewrite app_nil_r. reflexivity.
  - rewrite paginated_loop_step. cbv zeta.
    fold (page_call self endpoint (base_dict params w) method data json key page).
    set (r := page_call _ _ _ _ _ _ _ _).
    assert (Hone : ∀ w1, requests_of (trace w1) = requests_of (trace w) ++ [r] →
              ∃ n, requests_of (trace w1) =
                   requests_of (trace w) ++
                   calls (page_call self endpoint (base_dict params w) method
                            data json key) page n).
    { intros w1 Hw1. exists 1%nat. exact Hw1. }
    assert (Herr : ∀ e, requests_of (trace (after_error r e
                                              (with_page params key page w))) =
                        requests_of (trace w) ++ [r]).
    { intros e. rewrite requests_after_error. reflexivity. }
    destruct (supported method).
    + destruct (send _ _) as [resp|e]; [|apply Hone, Herr].
      destruct (raise_for_status resp); [apply Hone, Herr|].
      destruct (json_loads (text resp)) as [v|];
        [|apply Hone, requests_step].
      destruct (iterate v) as [items| |]; try apply Hone, requests_step.
      destruct (bool_decide _); [|apply Hone, requests_step].
      destruct (IH (Some (param_loc params w)) (page + 1) (acc ++ items)
                  (logged (EvHttp r) (with_page params key page w)))
        as (n & Hn).
      exists (S n). rewrite Hn, requests_step, base_dict_step, <- app_assoc.
      cbn [calls app]. do 2 f_equal.
      apply calls_ext. intros m. apply page_call_insert.
    + exists O. cbn. rewrite app_nil_r. reflexivity.
Qed.




(** The page number is written into the caller's dictionary whenever that
    dictionary is not empty: after a run of at least one turn, whatever its
    outcome, the object the caller passed holds [next_page_param]. *)
Lemma paginated_loop_writes_params self endpoint method data json key l fuel :
  ∀ page acc w d,
    heap w !! l = Some d → d ≠ ∅ →
    ∃ n, page ≤ n ∧
         heap (Api.fetch_paginated_loop (S fuel) self endpoint (Some l) method
                 data json key page acc w).2 !! l =
           Some (<[key := PInt n]> d).
Proof.
  induction fuel as [|fuel IH]; intros page acc w d Hl Hd.
  all: rewrite paginated_loop_step; cbv zeta.
  all: assert (Hloc : param_loc (Some l) w = l)
         by (unfold param_loc, base_dict; rewrite Hl; cbn; by case_decide).
  all: assert (Hbase : base_dict (Some l) w = d)
         by (unfold base_dict; by rewrite Hl).
  all: assert (Hw1 : heap (with_page (Some l) key page w) !! l =
                     Some (<[key := PInt page]> d))
         by (unfold with_page; rewrite Hloc, Hbase; cbn;
             by rewrite lookup_insert_eq).
  all: rewrite Hloc, Hbase.
  all: set (r := api_call _ _ _ _ _ _).
  all: assert (Herr : ∀ e, heap (after_error r e (with_page (Some l) key page w))
                             !! l = Some (<[key := PInt page]> d))
         by (intros e; by rewrite heap_after_error).
  all: assert (Hhere : ∀ (out : Outcome (list Json)) w1,
                 heap w1 !! l = Some (<[key := PInt page]> d) →
                 ∃ n, page ≤ n ∧ heap (out, w1).2 !! l = Some (<[key := PInt n]> d))
         by (intros out w1 Hw; exists page; split; [lia|exact Hw]).
  all: destruct (supported method); [|by apply Hhere].
  all: destruct (send _ _) as [resp|e]; [|by apply Hhere].
  all: destruct (raise_for_status resp); [by apply Hhere|].
  all: destruct (json_loads (text resp)) as [v|]; [|by apply Hhere].
  all: destruct (iterate v) as [items| |]; try by apply Hhere.
  all: destruct (bool_decide _); [|by apply Hhere].
  - exists page. split; [lia|exact Hw1].
  - destruct (IH (page + 1) (acc ++ items)
                (logged (EvHttp r) (with_page (Some l) key page w))
                (<[key := PInt page]> d) Hw1)
      as (n & Hn & Hheap); [apply insert_non_empty|].
    exists n. split; [lia|].
    rewrite Hheap, insert_insert_eq. reflexivity.
Qed.

End ApiPagination.

(** ** WebScraper: one page *)

Section WebPage.
Context `{RequestsLib, JsonLib, UrlLib, Bs4Lib}.
Implicit Types (self : Web.WebScraper) (w : World).

Lemma fetch_page_eq self url params method w :
  let full_url := urljoin (Web.base_url self) url in
  let w0 := logged (EvPolicy (Web.user_agent self) full_url) w in
  let r := web_call self url params method in
  Web.fetch_page self url params method w =
    if Web.robot_parser self (Web.user_agent self) full_url then
      if web_supported method then
        match send (requests_of (trace w)) r with
        | NetExn e => (Raise e, logged (EvHttp r) w0)
        | NetResp resp =>
            match raise_for_status resp with
            | Some e => (Raise e, logged (EvHttp r) w0)
            | None => (Ret (text resp), logged (EvHttp r) w0)
            end
        end
      else
        (Raise (mkExn ValueError ("Unsupported HTTP method: " +:+ method)), w0)
    else
      (Raise (mkExn PermissionError
                ("Fetching the URL '" +:+ full_url +:+
                 "' is disallowed by the site's robots.txt file.")), w0).
Proof.
  intros full_url w0 r. subst w0 r.
  unfold Web.fetch_page, Web._is_allowed_by_robots, web_supported, web_call.
  cbv zeta. fold full_url. rewrite !bind_unfold. run_monad.
  destruct (Web.robot_parser self (Web.user_agent self) full_url);
    [|reflexivity].
  cbn.
  destruct (String.eqb_spec method "GET") as [->|?].
  { cbn. rewrite requests_of_policy.
    destruct (send _ _) as [resp|e]; [|reflexivity].
    destruct (raise_for_status resp); reflexivity. }
  destruct (String.eqb_spec method "POST") as [->|?].
  { cbn. rewrite requests_of_policy.
    destruct (send _ _) as [resp|e]; [|reflexivity].
    destruct (raise_for_status resp); reflexivity. }
  reflexivity.
Qed.


End WebPage.

(** ** WebScraper: pagination by link *)

Section WebPagination.
Context `{RequestsLib, JsonLib, UrlLib, Bs4Lib}.
Context {Item : Type}.
Implicit Types (self : Web.WebScraper) (w : World)
  (parser_func : Soup → list Item).

(** One turn of the [while url] loop. *)
Lemma handle_pagination_step fuel self url parser_func params method
    selector acc w :
  Web.handle_pagination_loop (S fuel) self url parser_func params method
    selector acc w =
  if truthy url then
    match Web.fetch_page self url params method w with
    | (Ret html, w1) =>
        let soup := BeautifulSoup html in
        match next_href soup selector with
        | Some href =>
            Web.handle_pagination_loop fuel self
              (urljoin (Web.base_url self) href) parser_func params method
              selector (acc ++ parser_func soup) w1
        | None => (Ret (acc ++ parser_func soup), w1)
        end
    | (Raise e, w1) => (Raise e, w1)
    | (Diverge, w1) => (Diverge, w1)
    end
  else (Ret acc, w).
Proof.
  cbn [Web.handle_pagination_loop]. destruct (truthy url); [|reflexivity].
  rewrite bind_unfold.
  destruct (Web.fetch_page self url params method w) as [[html|e|] w1];
    try reflexivity.
  unfold next_href, Web.parse_html. cbv zeta.
  destruct (select_one (BeautifulSoup html) selector) as [tag|];
    [|reflexivity].
  destruct (tag_attrs tag !! "href") as [href|]; [|reflexivity].
  destruct (truthy href); reflexivity.
Qed.

Lemma fetch_page_ok self url params method w resp :
  web_supported method = true →
  Web.robot_parser self (Web.user_agent self)
    (urljoin (Web.base_url self) url) = true →
  send (requests_of (trace w)) (web_call self url params method) = NetResp resp →
  raise_for_status resp = None →
  ∃ w1, Web.fetch_page self url params method w = (Ret (text resp), w1) ∧
        requests_of (trace w1) =
          requests_of (trace w) ++ [web_call self url params method].
Proof.
  intros Hm Hallowed Hsend Hok. rewrite fetch_page_eq. cbv zeta.
  rewrite Hallowed, Hm, Hsend, Hok. eexists; split; [reflexivity|].
  cbn. rewrite requests_of_snoc, requests_of_policy. reflexivity.
Qed.

(** The loop on a source of linked pages: it fetches every page, once
    and in order, and returns the items of the pages one after the
    other. *)
Lemma handle_pagination_pages self parser_func params method selector pages :
  web_supported method = true →
  ∀ fuel url acc w,
    linked_source self params method selector (requests_of (trace w)) url
      pages →
    (length pages ≤ fuel)%nat →
    ∃ w', Web.handle_pagination_loop fuel self url parser_func params method
            selector acc w =
            (Ret (acc ++ concat ((λ p, parser_func (BeautifulSoup (text p.2)))
                                   <$> pages)), w') ∧
          requests_of (trace w') =
            requests_of (trace w) ++
            ((λ p, web_call self p.1 params method) <$> pages).
Proof.
  intros Hm. induction pages as [|[u resp] pages IH];
    intros fuel url acc w Hsrc Hfuel; [done|].
  destruct fuel as [|fuel]; [cbn in Hfuel; lia|].
  cbn [linked_source] in Hsrc.
  destruct Hsrc as (Hu & Hurl & Hallowed & Hsend & Hok & Hrest).
  cbn [fst snd] in Hu, Hsend, Hok, Hrest. subst u.
  rewrite handle_pagination_step, Hurl.
  destruct (fetch_page_ok _ _ _ _ _ _ Hm Hallowed Hsend Hok)
    as (w1 & -> & Hw1).
  cbv beta iota zeta. destruct pages as [|p' pages].
  - rewrite Hrest. exists w1. split.
    + cbn. rewrite app_nil_r. reflexivity.
    + exact Hw1.
  - destruct Hrest as (href & -> & Hrest).
    rewrite <- Hw1 in Hrest.
    destruct (IH fuel _ (acc ++ parser_func (BeautifulSoup (text resp))) w1 Hrest)
      as (w' & Hrun & Htrace); [cbn in Hfuel |- *; lia|].
    exists w'. split.
    + rewrite Hrun. cbn. rewrite <- !app_assoc. reflexivity.
    + rewrite Htrace, Hw1, <- app_assoc. reflexivity.
Qed.




End WebPagination.

(** ** DataCleaner: stripping tags *)

Section StripTags.

(** The matcher is lazy and leftmost: the first ['<'] is closed by the
    first ['>'] after it; a ['<'] whose line holds no ['>'] after it stays;
    a newline (code point 10) between the two keeps a tag from matching. *)
Example remove_html_tags_lazy :
  @Cleaner.remove_html_tags Doubles.cleaner (of_string "<a><b>x</b> 1 < 2 > 1 <") =
    of_string "x 1  1 <".
Proof. reflexivity. Qed.

Example remove_html_tags_newline :
  @Cleaner.remove_html_tags Doubles.cleaner
    (of_string "a<b" ++ 10%N :: of_string "c>d") =
    of_string "a<b" ++ 10%N :: of_string "c>d".
Proof. reflexivity. Qed.

Example remove_special_characters_default :
  @Cleaner.remove_special_characters Doubles.str_double Doubles.cleaner
    (of_string "Hi, 12 of us!") false = of_string "Hi  of us".
Proof. reflexivity. Qed.

Lemma lazy_star_closing s :
  lazy_star Dot (match_len [One (Chr 62)]) s = closing s.
Proof.
  induction s as [|c s IH]; [reflexivity|].
  cbn [lazy_star closing].
  replace (match_len [One (Chr 62)] (c :: s))
    with (if N.eqb c 62 then Some 1%nat else None)
    by (cbn; destruct (N.eqb c 62); reflexivity).
  destruct (N.eqb c 62); [reflexivity|].
  cbn [atom_matches]. destruct (N.eqb c 10); cbn [negb]; [reflexivity|].
  rewrite IH. reflexivity.
Qed.

Lemma match_len_tag c s :
  match_len Cleaner.tag_re (c :: s) =
    if N.eqb c 60 then S <$> closing s else None.
Proof.
  unfold Cleaner.tag_re. cbn [match_len atom_matches].
  destruct (N.eqb c 60); [|reflexivity].
  rewrite lazy_star_closing. reflexivity.
Qed.

Lemma sub_go_skip p n s : sub_go p n s = sub_go p O (drop n s).
Proof.
  revert n. induction s as [|c s IH]; intros [|n]; try reflexivity.
  cbn [sub_go drop]. apply IH.
Qed.

Lemma sub_cons p c s :
  Re.sub p (c :: s) =
    match match_len p (c :: s) with
    | Some (S n) => Re.sub p (drop n s)
    | _ => c :: Re.sub p s
    end.
Proof.
  unfold Re.sub. cbn [sub_go].
  destruct (match_len p (c :: s)) as [[|n]|]; try reflexivity.
  apply sub_go_skip.
Qed.

Lemma strip_cons c s :
  Re.sub Cleaner.tag_re (c :: s) =
    if N.eqb c 60 then
      match closing s with
      | Some n => Re.sub Cleaner.tag_re (drop n s)
      | None => c :: Re.sub Cleaner.tag_re s
      end
    else c :: Re.sub Cleaner.tag_re s.
Proof.
  rewrite sub_cons, match_len_tag.
  destruct (N.eqb c 60); [|reflexivity].
  destruct (closing s); reflexivity.
Qed.

Lemma closes_closing s : closes s = false ↔ closing s = None.
Proof.
  induction s as [|c s IH]; cbn; [done|].
  destruct (N.eqb c 62); [done|]. destruct (N.eqb c 10); [done|].
  rewrite IH. destruct (closing s); done.
Qed.

(** Stripping does not bring a ['>'] onto a line that had none. *)
Lemma closes_strip s :
  closes s = false → closes (Re.sub Cleaner.tag_re s) = false.
Proof.
  induction s as [|c s IH]; [done|].
  intros Hc. rewrite strip_cons. cbn in Hc.
  destruct (N.eqb c 62) eqn:E62; [done|].
  destruct (N.eqb c 10) eqn:E10.
  - apply N.eqb_eq in E10. subst c. reflexivity.
  - pose proof (proj1 (closes_closing s) Hc) as Hcl. rewrite Hcl.
    assert (closes (c :: Re.sub Cleaner.tag_re s) = false) as Hgoal
      by (cbn; rewrite E62, E10; auto).
    destruct (N.eqb c 60); exact Hgoal.
Qed.

Lemma closing_le s n : closing s = Some n → (n ≤ length s)%nat.
Proof.
  revert n. induction s as [|c s IH]; intros n; cbn; [done|].
  destruct (N.eqb c 62); [intros [= <-]; lia|].
  destruct (N.eqb c 10); [done|].
  destruct (closing s) as [m|]; [|done].
  intros [= <-]. specialize (IH m eq_refl). lia.
Qed.

(** What is left after stripping holds no tag. *)
Lemma tag_free_strip s : tag_free (Re.sub Cleaner.tag_re s) = true.
Proof.
  remember (length s) as n eqn:Hn.
  assert (Hle : (length s ≤ n)%nat) by lia. clear Hn. revert s Hle.
  induction n as [|n IH]; intros [|c s] Hle; try reflexivity;
    [cbn in Hle; lia|].
  cbn in Hle. rewrite strip_cons.
  assert (Hkeep : closes s = false ∨ N.eqb c 60 = false →
            tag_free (c :: Re.sub Cleaner.tag_re s) = true).
  { intros Hc. cbn [tag_free]. rewrite IH by lia.
    destruct (N.eqb c 60); [|done].
    destruct Hc as [Hc|?]; [|done]. by rewrite closes_strip. }
  destruct (N.eqb c 60) eqn:E60; [|by apply Hkeep; right].
  destruct (closing s) as [m|] eqn:Hcl.
  - apply IH. rewrite length_drop. lia.
  - apply Hkeep. left. by apply closes_closing.
Qed.

(** A text without a tag is left as it is. *)
Lemma strip_tag_free s : tag_free s = true → Re.sub Cleaner.tag_re s = s.
Proof.
  induction s as [|c s IH]; [done|].
  cbn [tag_free]. intros [Hc Hs]%andb_prop. rewrite strip_cons, (IH Hs).
  destruct (N.eqb c 60); [|done].
  apply negb_true_iff, closes_closing in Hc. by rewrite Hc.
Qed.

Lemma closes_markup s : closes (markup s) = closes s.
Proof.
  induction s as [|c s IH]; [done|].
  unfold markup in *. cbn [List.filter]. unfold is_markup at 1.
  destruct (N.eqb c 62) eqn:E62.
  { rewrite orb_true_r. cbn. by rewrite E62. }
  destruct (N.eqb c 10) eqn:E10.
  { rewrite orb_true_r. cbn. by rewrite E62, E10. }
  destruct (N.eqb c 60) eqn:E60; cbn; rewrite ?E62, ?E10; exact IH.
Qed.

(** Whether a text holds a tag is decided by its markup characters. *)
Lemma tag_free_markup s : tag_free (markup s) = tag_free s.
Proof.
  induction s as [|c s IH]; [done|].
  pose proof (closes_markup s) as Hc.
  unfold markup in *. cbn [List.filter]. unfold is_markup at 1.
  destruct (N.eqb c 60) eqn:E60.
  { cbn. by rewrite E60, IH, Hc. }
  destruct (N.eqb c 62) eqn:E62.
  { cbn. by rewrite E60, IH. }
  destruct (N.eqb c 10) eqn:E10; cbn; rewrite ?E60; exact IH.
Qed.

End StripTags.

(** ** DataCleaner: data frames *)

Section Frames.
Context `{Cleaner.StrLib, Cleaner.NltkLib}.
Implicit Types (self : Cleaner.DataCleaner) (frames : Cleaner.Frames)
  (f : Cleaner.DataFrame).


Lemma zip_with_fmap_same {A B C} (g : A → B → C) (h : A → B) (l : list A) :
  zip_with g l (h <$> l) = (λ x, g x (h x)) <$> l.
Proof. induction l as [|x l IH]; [reflexivity|]. cbn. by rewrite IH. Qed.


(** Two frames made one after the other from a frame that stays. *)
Lemma two_new_frames frames df f (g1 g2 : Cleaner.DataFrame → Cleaner.DataFrame) :
  frames !! df = Some f →
  ∃ l frames',
    ((Cleaner.read_frame df ≫= λ f1, Cleaner.new_frame (g1 f1)) ≫= λ d,
     Cleaner.read_frame d ≫= λ f2, Cleaner.new_frame (g2 f2)) frames =
      (Ret l, frames') ∧
    l ≠ df ∧ frames !! l = None ∧ frames' !! l = Some (g2 (g1 f)) ∧
    ∀ l0, is_Some (frames !! l0) → frames' !! l0 = frames !! l0.
Proof.
  intros Hdf.
  set (l1 := fresh (dom frames)).
  set (frames1 := <[l1 := g1 f]> frames).
  set (l2 := fresh (dom frames1)).
  assert (Hl1 : frames !! l1 = None)
    by (apply not_elem_of_dom, is_fresh).
  assert (Hl2 : frames1 !! l2 = None)
    by (apply not_elem_of_dom, is_fresh).
  assert (Hne : l2 ≠ l1).
  { intros Heq. rewrite Heq in Hl2. unfold frames1 in Hl2.
    by rewrite lookup_insert_eq in Hl2. }
  assert (Hl2' : frames !! l2 = None).
  { unfold frames1 in Hl2. by rewrite lookup_insert_ne in Hl2. }
  exists l2, (<[l2 := g2 (g1 f)]> frames1). repeat split.
  - unfold Cleaner.read_frame, Cleaner.new_frame, gets.
    rewrite !bind_unfold, Hdf. cbn [default from_option id].
    rewrite lookup_insert_eq. reflexivity.
  - intros ->. congruence.
  - exact Hl2'.
  - apply lookup_insert_eq.
  - intros l0 [f0 Hl0]. unfold frames1.
    rewrite !lookup_insert_ne; [done|congruence|congruence].
Qed.

End Frames.

(** ** WebScraper: JSON-LD blocks *)

Section JsonLd.
Context `{JsonLib, Bs4Lib}.



End JsonLd.

(** * The claims *)

(** C1.  On a source of linked pages, [handle_pagination] returns the
    items of page 1, then those of page 2, and so on, each page's items in
    the order the parser gives them; it asks for every page once, in
    order, and for nothing after the first page without a "next" link. *)
Theorem handle_pagination_by_link `{RequestsLib, UrlLib, Bs4Lib} {Item}
    (self : Web.WebScraper) (url : string) (parser_func : Soup → list Item)
    (params : option dict) (method selector : string)
    (pages : list (string * Response)) (fuel : nat) (w : World) :
  web_supported method = true →
  linked_source self params method selector (requests_of (trace w)) url pages →
  (length pages ≤ fuel)%nat →
  ∃ w',
    Web.handle_pagination fuel self url parser_func params method selector w =
      (Ret (concat ((λ p, parser_func (BeautifulSoup (text p.2))) <$> pages)), w') ∧
    requests_of (trace w') =
      requests_of (trace w) ++ ((λ p, web_call self p.1 params method) <$> pages).
Proof.
  intros Hm Hsrc Hfuel.
  exact (handle_pagination_pages self parser_func params method selector pages
           Hm fuel url [] w Hsrc Hfuel).
Qed.

(** The example of the specification: page 1 yields a and b and links to
    /p2, page 2 yields c and has no link; the result is a, b, c after two
    calls. *)
Lemma handle_pagination_by_link_witness :
  let run := @Web.handle_pagination Doubles.shop_site Doubles.url_double
               Doubles.shop_docs _ 2 Doubles.shop "/p1" Doubles.li_texts None
               "GET" "a.next" Doubles.empty_world in
  run.1 = Ret ["a"; "b"; "c"] ∧
  req_url <$> requests_of (trace run.2) = ["http://site/p1"; "http://site/p2"].
Proof.
  destruct (@handle_pagination_by_link Doubles.shop_site Doubles.url_double
              Doubles.shop_docs _ Doubles.shop "/p1" Doubles.li_texts None
              "GET" "a.next"
              [("/p1", Doubles.ok_response "page1" ∅);
               ("http://site/p2", Doubles.ok_response "page2" ∅)]
              2%nat Doubles.empty_world)
    as (w' & Hrun & Htrace).
  - reflexivity.
  - cbn. repeat split; try reflexivity.
    exists "/p2". repeat split; reflexivity.
  - cbn. lia.
  - cbv zeta. rewrite Hrun. cbn [fst snd]. rewrite Htrace.
    split; reflexivity.
Defined.

(** C2.  The calls of [fetch_paginated_data] are the calls for the pages
    [start_page], [start_page + 1], ... in this order, the k-th of them
    (from 0) with [next_page_param] set to [start_page + k]; on a source
    of pages whose responses carry a "next" link relation up to the last
    one, which carries none, every page is fetched once and the lists are
    returned one after the other.  Pages with an empty list are pages like
    the others. *)
Theorem fetch_paginated_data_by_page_number `{RequestsLib, JsonLib}
    (self : Api.APIFetcher) (endpoint : string) (params : option loc)
    (method : string) (data : option Body) (json : option Json)
    (next_page_param : string) (start_page : Z) (fuel : nat) (w : World) :
  let call := page_call self endpoint (base_dict params w) method data json
                next_page_param in
  let run := Api.fetch_paginated_data fuel self endpoint params method data
               json next_page_param start_page w in
  (∃ n, requests_of (trace run.2) =
          requests_of (trace w) ++ calls call start_page n) ∧
  (∀ n k r, calls call start_page n !! k = Some r →
     ∃ d, req_params r = Some d ∧
          d !! next_page_param = Some (PInt (start_page + Z.of_nat k))) ∧
  (∀ pages,
     supported method = true →
     paged_source (requests_of (trace w)) call start_page pages →
     (length pages ≤ fuel)%nat →
     run.1 = Ret (concat pages.*2) ∧
     requests_of (trace run.2) =
       requests_of (trace w) ++ calls call start_page (length pages)).
Proof.
  intros call run. split; [|split].
  - apply paginated_loop_calls.
  - intros n. generalize start_page. induction n as [|n IH]; intros page k r.
    + done.
    + destruct k as [|k]; cbn.
      * intros [= <-]. eexists; split; [reflexivity|].
        rewrite lookup_insert_eq. do 2 f_equal. lia.
      * intros Hk. destruct (IH _ _ _ Hk) as (d & Hd & Hkey).
        exists d. split; [done|]. rewrite Hkey. do 2 f_equal. lia.
  - intros pages Hm Hsrc Hfuel.
    destruct (paginated_loop_pages self endpoint method data json
                next_page_param pages Hm fuel params start_page [] w Hsrc Hfuel)
      as (w' & Hrun & Htrace).
    unfold run, Api.fetch_paginated_data. rewrite Hrun. done.
Qed.

(** Three pages, the second of them empty: the loop goes on to the third,
    and the calls carry page = 1, 2, 3. *)
Lemma fetch_paginated_data_by_page_number_witness :
  let run := @Api.fetch_paginated_data
               (Doubles.scripted
                  [NetResp (Doubles.ok_response "[1, 2]" (Doubles.next_link "more"));
                   NetResp (Doubles.ok_response "[]" (Doubles.next_link "more"));
                   NetResp (Doubles.ok_response "[3]" ∅)])
               Doubles.json_double 3 Doubles.api "items" None "GET" None None
               "page" 1 Doubles.empty_world in
  run.1 = Ret [JNum 1; JNum 2; JNum 3] ∧
  (λ r, req_params r ≫= (.!! "page")) <$> requests_of (trace run.2) =
    [Some (PInt 1); Some (PInt 2); Some (PInt 3)].
Proof.
  destruct (@fetch_paginated_data_by_page_number
              (Doubles.scripted
                 [NetResp (Doubles.ok_response "[1, 2]" (Doubles.next_link "more"));
                  NetResp (Doubles.ok_response "[]" (Doubles.next_link "more"));
                  NetResp (Doubles.ok_response "[3]" ∅)])
              Doubles.json_double Doubles.api "items" None "GET" None None
              "page" 1 3%nat Doubles.empty_world)
    as (_ & _ & Hpages).
  destruct (Hpages
              [(Doubles.ok_response "[1, 2]" (Doubles.next_link "more"),
                [JNum 1; JNum 2]);
               (Doubles.ok_response "[]" (Doubles.next_link "more"), []);
               (Doubles.ok_response "[3]" ∅, [JNum 3])])
    as [Hrun Htrace].
  - reflexivity.
  - cbn. repeat split; try reflexivity; by eexists.
  - cbn. lia.
  - cbv zeta. rewrite Hrun, Htrace. split; reflexivity.
Defined.

(** C3, as the code has it.  The caller passes the dictionary at location
    1, which holds q = x, and asks for one page.  [params or {}] keeps a
    dictionary that is not empty, so [params[next_page_param] = page]
    writes into the caller's object: after the call it holds page = 1 as
    well. *)
Theorem fetch_paginated_data_mutates_params :
  let before : dict := {["q" := PStr "x"]} in
  let w := mkWorld {[1%positive := before]} [] [] in
  let run := @Api.fetch_paginated_data
               (Doubles.scripted [NetResp (Doubles.ok_response "[3]" ∅)])
               Doubles.json_double 1 Doubles.api "items" (Some 1%positive)
               "GET" None None "page" 1 w in
  run.1 = Ret [JNum 3] ∧
  heap w !! 1%positive = Some before ∧
  heap run.2 !! 1%positive = Some (<["page" := PInt 1]> before) ∧
  heap run.2 !! 1%positive ≠ heap w !! 1%positive.
Proof.
  cbv zeta. repeat split; try (vm_compute; reflexivity).
  vm_compute. discriminate.
Qed.

(** C4.  [fetch_page] asks the robots parser about the joined URL before
    anything else.  When the answer is no, the call raises the
    [PermissionError] and the network is not used; when a request is
    made, it comes right after that question, for that URL, and the
    answer was yes. *)
Theorem fetch_page_policy_denied `{RequestsLib, UrlLib}
    (self : Web.WebScraper) (url : string) (params : option dict)
    (method : string) (w : World) :
  let full_url := urljoin (Web.base_url self) url in
  let asked := EvPolicy (Web.user_agent self) full_url in
  let run := Web.fetch_page self url params method w in
  (Web.robot_parser self (Web.user_agent self) full_url = false →
   run.1 = Raise (mkExn PermissionError
                    ("Fetching the URL '" +:+ full_url +:+
                     "' is disallowed by the site's robots.txt file.")) ∧
   trace run.2 = trace w ++ [asked] ∧
   requests_of (trace run.2) = requests_of (trace w)) ∧
  (trace run.2 = trace w ++ [asked] ∨
   trace run.2 = trace w ++ [asked; EvHttp (web_call self url params method)] ∧
   Web.robot_parser self (Web.user_agent self) full_url = true).
Proof.
  intros full_url asked run. unfold run. rewrite fetch_page_eq. cbv zeta.
  fold full_url asked. split.
  - intros ->. cbn. repeat split. apply requests_of_policy.
  - assert (Hsent : ∀ r, trace (logged (EvHttp r) (logged asked w)) =
                         trace w ++ [asked; EvHttp r]).
    { intros r. cbn. by rewrite <- app_assoc. }
    destruct (Web.robot_parser _ _ _); [|by left].
    destruct (web_supported method); [|by left].
    destruct (send _ _) as [resp|e]; [|right; split; [apply Hsent|done]].
    destruct (raise_for_status resp); right; (split; [apply Hsent|done]).
Qed.

(** The private corner of the site is off limits: the call fails and the
    trace holds the question put to the robots parser, nothing else. *)
Lemma fetch_page_policy_denied_witness :
  let run := @Web.fetch_page Doubles.shop_site Doubles.url_double
               Doubles.shop "/private/x" None "GET" Doubles.empty_world in
  run.1 = Raise (mkExn PermissionError
                   "Fetching the URL 'http://site/private/x' is disallowed by the site's robots.txt file.") ∧
  trace run.2 = [EvPolicy "WebScraperBot" "http://site/private/x"].
Proof.
  destruct (@fetch_page_policy_denied Doubles.shop_site Doubles.url_double
              Doubles.shop "/private/x" None "GET" Doubles.empty_world)
    as [Hdenied _].
  destruct Hdenied as (Hrun & Htrace & _); [reflexivity|].
  split; [exact Hrun|exact Htrace].
Defined.

(** C5.  When the same fetch fails with the errors [errs], each a
    [RequestException], a success on the attempt after them is returned
    provided [retries] is larger than the number of failures; with
    [retries] equal to the number of failures the last error is raised.
    Either way one call is made per attempt. *)
Theorem fetch_data_with_retry_spec `{RequestsLib, JsonLib}
    (self : Api.APIFetcher) (endpoint : string) (params : option loc)
    (method : string) (data : option Body) (json : option Json)
    (errs : list Exn) (w : World) :
  let r := api_call self (Api.base_url self +:+ "/" +:+ endpoint)
             (snap params w) method data json in
  supported method = true →
  fails_with (requests_of (trace w)) r errs →
  (∀ resp v retries,
     send (requests_of (trace w) ++ replicate (length errs) r) r = NetResp resp →
     raise_for_status resp = None →
     json_loads (text resp) = Some v →
     Z.of_nat (length errs) < retries →
     ∃ w', Api.fetch_data_with_retry self endpoint params method data json
             retries w = (Ret v, w') ∧
           requests_of (trace w') =
             requests_of (trace w) ++ replicate (S (length errs)) r) ∧
  (∀ e, last errs = Some e →
     ∃ w', Api.fetch_data_with_retry self endpoint params method data json
             (Z.of_nat (length errs)) w = (Raise e, w') ∧
           requests_of (trace w') =
             requests_of (trace w) ++ replicate (length errs) r).
Proof.
  intros r Hm Hfail. split.
  - intros resp v retries Hsend Hok Hv Hlt.
    unfold Api.fetch_data_with_retry.
    apply (retry_loop_returns self endpoint params method data json retries
             resp v errs Hm Hok Hv 0 (Z.to_nat retries) w Hfail Hsend);
      lia.
  - intros e Hlast.
    destruct errs as [|e0 errs] using rev_ind; [done|].
    rewrite last_snoc in Hlast. injection Hlast as ->.
    unfold Api.fetch_data_with_retry.
    apply (retry_loop_raises self endpoint params method data json _ errs e
             Hm 0 _ w Hfail); lia.
Qed.

(** The example of the specification: the transport fails twice, then
    succeeds.  With retries=3 the third answer is returned; with
    retries=2 the second error is raised. *)
Lemma fetch_data_with_retry_spec_witness :
  let transport :=
    Doubles.scripted [NetExn Doubles.refused; NetExn Doubles.timed_out;
                      NetResp (Doubles.ok_response "[1, 2]" ∅)] in
  (@Api.fetch_data_with_retry transport Doubles.json_double Doubles.api
     "items" None "GET" None None 3 Doubles.empty_world).1 =
    Ret (JList [JNum 1; JNum 2]) ∧
  (@Api.fetch_data_with_retry transport Doubles.json_double Doubles.api
     "items" None "GET" None None 2 Doubles.empty_world).1 =
    Raise Doubles.timed_out.
Proof.
  intros transport.
  destruct (@fetch_data_with_retry_spec transport Doubles.json_double
              Doubles.api "items" None "GET" None None
              [Doubles.refused; Doubles.timed_out] Doubles.empty_world)
    as [Hret Hraise].
  - reflexivity.
  - cbn. repeat split; reflexivity.
  - destruct (Hret (Doubles.ok_response "[1, 2]" ∅) (JList [JNum 1; JNum 2]) 3)
      as (w3 & Hrun3 & _); [reflexivity|reflexivity|reflexivity|cbn; lia|].
    destruct (Hraise Doubles.timed_out) as (w2 & Hrun2 & _); [reflexivity|].
    split; [exact (f_equal fst Hrun3)|exact (f_equal fst Hrun2)].
Defined.

(** C6, as the code has it.  [fetch_headers] asks [_make_request] for the
    method HEAD, which [_make_request] does not dispatch: the call ends
    with the unsupported-method [ValueError] whatever the endpoint, the
    parameters and the remote side, and nothing is sent. *)
Theorem fetch_headers_unsupported `{RequestsLib}
    (self : Api.APIFetcher) (endpoint : string) (params : option loc) (w : World) :
  Api.fetch_headers self endpoint params w =
    (Raise (mkExn ValueError "Unsupported HTTP method: HEAD"), w).
Proof.
  unfold Api.fetch_headers.
  erewrite bind_raise; [reflexivity|].
  apply make_request_unsupported. reflexivity.
Qed.






(** ** The example instance of [str.lower] *)

Lemma lower_char_cases c :
  (65 ≤ c ≤ 90)%N ∧ Doubles.lower_char c = (c + 32)%N ∨
  ¬ (65 ≤ c ≤ 90)%N ∧ Doubles.lower_char c = c.
Proof.
  unfold Doubles.lower_char.
  destruct (N.leb_spec 65 c), (N.leb_spec c 90); cbn;
    [left|right..]; (split; [lia|reflexivity]).
Qed.

Lemma lower_char_idem c :
  Doubles.lower_char (Doubles.lower_char c) = Doubles.lower_char c.
Proof.
  destruct (lower_char_cases c) as [[Hc Heq]|[Hc Heq]]; rewrite Heq.
  - destruct (lower_char_cases (c + 32)) as [[Hc' _]|[_ Heq']]; [lia|done].
  - exact Heq.
Qed.

Lemma is_markup_cases c :
  is_markup c = true → c = 60%N ∨ c = 62%N ∨ c = 10%N.
Proof.
  unfold is_markup.
  destruct (N.eqb_spec c 60), (N.eqb_spec c 62), (N.eqb_spec c 10); cbn;
    auto; done.
Qed.

Lemma lower_char_markup c :
  is_markup (Doubles.lower_char c) = is_markup c ∧
  (is_markup c = true → Doubles.lower_char c = c).
Proof.
  destruct (lower_char_cases c) as [[Hc Heq]|[Hc Heq]]; rewrite Heq;
    [|done].
  destruct (is_markup c) eqn:Hm.
  { apply is_markup_cases in Hm. lia. }
  destruct (is_markup (c + 32)) eqn:Hm'; [|done].
  apply is_markup_cases in Hm'. lia.
Qed.

Lemma str_double_idem s :
  @Cleaner.str_lower Doubles.str_double (@Cleaner.str_lower Doubles.str_double s) =
    @Cleaner.str_lower Doubles.str_double s.
Proof.
  cbn. rewrite <- list_fmap_compose. apply list_fmap_ext.
  intros _ c _. apply lower_char_idem.
Qed.

Lemma str_double_markup s :
  markup (@Cleaner.str_lower Doubles.str_double s) = markup s.
Proof.
  cbn. unfold markup. induction s as [|c s IH]; [done|].
  cbn [fmap list_fmap List.filter].
  destruct (lower_char_markup c) as [Heq Hfix]. rewrite Heq.
  destruct (is_markup c); [|exact IH].
  rewrite Hfix by done. f_equal. exact IH.
Qed.

(** C9.  With only the strip-tags and lowercase steps enabled,
    [normalize_text] applied twice gives what it gives applied once.  Of
    [str.lower] the proof uses that lowering twice is lowering once, and
    that lowering leaves the ['<'], ['>'] and newline characters of a text
    where they are and brings in no new one. *)
Theorem normalize_text_idempotent `{Cleaner.StrLib, Cleaner.NltkLib}
    (self : Cleaner.DataCleaner) :
  (∀ s, Cleaner.str_lower (Cleaner.str_lower s) = Cleaner.str_lower s) →
  (∀ s, markup (Cleaner.str_lower s) = markup s) →
  ∀ text,
    Cleaner.normalize_text self
      (Cleaner.normalize_text self text true false true false false false)
      true false true false false false =
    Cleaner.normalize_text self text true false true false false false.
Proof.
  intros Hidem Hmarkup text.
  unfold Cleaner.normalize_text, Cleaner.to_lowercase, Cleaner.remove_html_tags.
  cbv zeta.
  rewrite (strip_tag_free (Cleaner.str_lower _)).
  - apply Hidem.
  - rewrite <- tag_free_markup, Hmarkup, tag_free_markup.
    apply tag_free_strip.
Qed.

Lemma normalize_text_idempotent_witness :
  let f := λ t, @Cleaner.normalize_text Doubles.str_double Doubles.nltk_double
                  Doubles.cleaner t true false true false false false in
  f (of_string "<B>Two <<i>Tags</i> > a < B") = of_string "two tags > a < b" ∧
  f (f (of_string "<B>Two <<i>Tags</i> > a < B")) =
    f (of_string "<B>Two <<i>Tags</i> > a < B").
Proof.
  split; [vm_compute; reflexivity|].
  apply (@normalize_text_idempotent Doubles.str_double Doubles.nltk_double
           Doubles.cleaner str_double_idem str_double_markup).
Defined.



(** * Further properties of the code *)

#[local] Set Warnings "-clear-no-such-hyp".

(** ** APIFetcher *)

Section ApiMore.
Context `{RequestsLib, JsonLib}.
Implicit Types (self : Api.APIFetcher) (w : World).

Lemma supported_elem method :
  supported method = true ↔ method ∈ ["GET"; "POST"; "PUT"; "DELETE"].
Proof.
  unfold supported. rewrite !elem_of_cons, elem_of_nil, !orb_true_iff.
  rewrite <- !(String.eqb_eq method). tauto.
Qed.

Lemma fetch_data_unsupported self endpoint params method data json w :
  supported method = false →
  Api.fetch_data self endpoint params method data json w =
    (Raise (mkExn ValueError ("Unsupported HTTP method: " +:+ method)), w).
Proof.
  intros Hm. unfold Api.fetch_data. cbv zeta.
  rewrite bind_unfold, (make_request_unsupported _ _ _ _ _ _ _ Hm).
  reflexivity.
Qed.

(** What one attempt of [fetch_data] does to the calls and the
    dictionaries. *)
Lemma fetch_data_effect self endpoint params method data json w :
  let r := api_call self (Api.base_url self +:+ "/" +:+ endpoint)
             (snap params w) method data json in
  let run := Api.fetch_data self endpoint params method data json w in
  heap run.2 = heap w ∧ run.1 ≠ Diverge ∧
  (requests_of (trace run.2) = requests_of (trace w) ∨
   requests_of (trace run.2) = requests_of (trace w) ++ [r]).
Proof.
  intros r run. unfold run. destruct (supported method) eqn:Hm.
  - rewrite (fetch_data_sent _ _ _ _ _ _ _ Hm). cbv zeta. fold r.
    destruct (send _ _) as [resp|e].
    + destruct (raise_for_status resp).
      * cbn [fst snd]. rewrite heap_after_error, requests_after_error. auto.
      * destruct (json_loads (text resp)); cbn; rewrite requests_of_snoc; auto.
    + cbn [fst snd]. rewrite heap_after_error, requests_after_error. auto.
  - rewrite (fetch_data_unsupported _ _ _ _ _ _ _ Hm). cbn. auto.
Qed.

Lemma retry_loop_bounded self endpoint params method data json retries budget :
  ∀ attempt w,
    (Z.to_nat (retries - attempt) ≤ budget)%nat →
    let r := api_call self (Api.base_url self +:+ "/" +:+ endpoint)
               (snap params w) method data json in
    let run := Api.retry_loop budget self endpoint params method data json
                 retries attempt w in
    run.1 ≠ Diverge ∧
    ∃ n, requests_of (trace run.2) = requests_of (trace w) ++ replicate n r ∧
         Z.of_nat n ≤ Z.max 0 (retries - attempt).
Proof.
  induction budget as [|budget IH]; intros attempt w Hbudget r run.
  - unfold run. cbn. destruct (Z.ltb_spec attempt retries); [lia|].
    cbn. split; [done|]. exists O. cbn. rewrite app_nil_r. split; [done|lia].
  - unfold run. cbn [Api.retry_loop].
    destruct (Z.ltb_spec attempt retries).
    2:{ cbn. split; [done|]. exists O. cbn. rewrite app_nil_r.
        split; [done|lia]. }
    unfold try_except.
    destruct (fetch_data_effect self endpoint params method data json w)
      as (Hheap & Hdiv & Hreq). cbv zeta in Hheap, Hdiv, Hreq. fold r in Hreq.
    destruct (Api.fetch_data self endpoint params method data json w)
      as [[v|e|] w1]; cbn [fst snd] in *; [| |done].
    + split; [done|]. destruct Hreq as [-> | ->].
      * exists O. cbn. rewrite app_nil_r. split; [done|lia].
      * exists 1%nat. split; [done|lia].
    + assert (Hfew : ∃ n, requests_of (trace w1) =
                            requests_of (trace w) ++ replicate n r ∧ (n ≤ 1)%nat).
      { destruct Hreq as [-> | ->];
          [exists O; cbn; rewrite app_nil_r|exists 1%nat]; split; done || lia. }
      destruct Hfew as (n1 & Hn1 & Hle1).
      destruct (is_RequestException e).
      2:{ cbn. split; [done|]. exists n1. split; [done|lia]. }
      rewrite bind_unfold. cbn [print modify fst snd].
      destruct (Z.eqb_spec (attempt + 1) retries).
      { cbn. split; [done|]. exists n1. split; [done|lia]. }
      set (w2 := printed _ w1).
      destruct (IH (attempt + 1) w2) as (Hdiv2 & n2 & Hn2 & Hle2); [lia|].
      cbv zeta in Hdiv2, Hn2.
      assert (Hsnap : snap params w2 = snap params w).
      { unfold snap, w2. cbn. by rewrite Hheap. }
      rewrite Hsnap in Hn2. fold r in Hn2.
      split; [exact Hdiv2|]. exists (n1 + n2)%nat. split; [|lia].
      rewrite Hn2. unfold w2. cbn [printed trace]. rewrite Hn1.
      rewrite <- app_assoc, replicate_add. reflexivity.
Qed.

(** The frame of the pagination loop: a turn writes into one dictionary,
    the one [param_loc] names, and into no other. *)
Lemma paginated_loop_frame self endpoint method data json key fuel :
  ∀ params page acc w l,
    l ≠ param_loc params w →
    heap (Api.fetch_paginated_loop fuel self endpoint params method data json
            key page acc w).2 !! l = heap w !! l.
Proof.
  induction fuel as [|fuel IH]; intros params page acc w l Hl; [done|].
  rewrite paginated_loop_step. cbv zeta. set (r := api_call _ _ _ _ _ _).
  assert (Hw1 : heap (with_page params key page w) !! l = heap w !! l).
  { unfold with_page. cbn. by rewrite lookup_insert_ne. }
  assert (Herr : ∀ e, heap (after_error r e (with_page params key page w)) !! l =
                      heap w !! l)
    by (intros e; by rewrite heap_after_error).
  destruct (supported method); [|exact Hw1].
  destruct (send _ _) as [resp|e]; [|apply Herr].
  destruct (raise_for_status resp); [apply Herr|].
  destruct (json_loads (text resp)) as [v|]; [|exact Hw1].
  destruct (iterate v) as [items| |]; try exact Hw1.
  destruct (bool_decide _); [|exact Hw1].
  rewrite IH; [exact Hw1|].
  unfold param_loc at 1. rewrite base_dict_step.
  rewrite decide_False by apply insert_non_empty. exact Hl.
Qed.

(** On a source whose every page carries a "next" link the loop makes
    one call per unit of fuel and does not come to an end. *)
Lemma paginated_loop_endless self endpoint method data json key fuel :
  supported method = true →
  ∀ params page acc w,
    (∀ past n, ∃ resp items,
       send past (page_call self endpoint (base_dict params w) method data
                    json key n) = NetResp resp ∧
       raise_for_status resp = None ∧
       json_loads (text resp) = Some (JList items) ∧
       is_Some (links resp !! "next")) →
    let run := Api.fetch_paginated_loop fuel self endpoint params method data
                 json key page acc w in
    run.1 = Diverge ∧
    requests_of (trace run.2) =
      requests_of (trace w) ++
      calls (page_call self endpoint (base_dict params w) method data json key)
        page fuel.
Proof.
  intros Hm. induction fuel as [|fuel IH]; intros params page acc w Hsrc run.
  - unfold run. cbn. by rewrite app_nil_r.
  - unfold run. rewrite paginated_loop_step, Hm. cbv zeta.
    destruct (Hsrc (requests_of (trace w)) page)
      as (resp & items & Hsend & Hok & Hjson & Hnext).
    unfold page_call in Hsend. rewrite Hsend, Hok, Hjson. cbn [iterate].
    rewrite bool_decide_eq_true_2 by done.
    fold (page_call self endpoint (base_dict params w) method data json key page).
    set (r := page_call _ _ _ _ _ _ _ _).
    destruct (IH (Some (param_loc params w)) (page + 1) (acc ++ items)
                (logged (EvHttp r) (with_page params key page w)))
      as [Hdiv Hreq].
    { intros past n. rewrite base_dict_step, page_call_insert. apply Hsrc. }
    cbv zeta in Hdiv, Hreq. split; [exact Hdiv|].
    rewrite Hreq, requests_step, base_dict_step, <- app_assoc.
    cbn [calls app]. do 2 f_equal.
    apply calls_ext. intros m. apply page_call_insert.
Qed.

End ApiMore.

(** X1.  With [retries] zero or negative the retry wrapper makes no
    attempt at all: it returns [None], sends nothing and prints
    nothing. *)
Theorem fetch_data_with_retry_no_attempt `{RequestsLib, JsonLib}
    (self : Api.APIFetcher) (endpoint : string) (params : option loc)
    (method : string) (data : option Body) (json : option Json)
    (retries : Z) (w : World) :
  retries ≤ 0 →
  Api.fetch_data_with_retry self endpoint params method data json retries w =
    (Ret JNull, w).
Proof.
  intros Hr. unfold Api.fetch_data_with_retry.
  replace (Z.to_nat retries) with O by lia. cbn.
  destruct (Z.ltb_spec 0 retries); [lia|reflexivity].
Qed.

Lemma fetch_data_with_retry_no_attempt_witness :
  @Api.fetch_data_with_retry
    (Doubles.scripted [NetResp (Doubles.ok_response "[3]" ∅)])
    Doubles.json_double Doubles.api "items" None "GET" None None 0
    Doubles.empty_world = (Ret JNull, Doubles.empty_world).
Proof.
  apply (@fetch_data_with_retry_no_attempt
           (Doubles.scripted [NetResp (Doubles.ok_response "[3]" ∅)])
           Doubles.json_double).
  lia.
Defined.

(** X2.  Only a [RequestException] is retried.  A method that
    [_make_request] does not dispatch ends the wrapper at once with the
    [ValueError], nothing sent; an error of the fetch that is not a
    [RequestException] ends it after that one call, whatever [retries]. *)
Theorem fetch_data_with_retry_other_errors `{RequestsLib, JsonLib}
    (self : Api.APIFetcher) (endpoint : string) (params : option loc)
    (method : string) (data : option Body) (json : option Json)
    (retries : Z) (w : World) :
  1 ≤ retries →
  let r := api_call self (Api.base_url self +:+ "/" +:+ endpoint)
             (snap params w) method data json in
  let run := Api.fetch_data_with_retry self endpoint params method data json
               retries w in
  (supported method = false →
   run = (Raise (mkExn ValueError ("Unsupported HTTP method: " +:+ method)), w)) ∧
  (supported method = true →
   ∀ e, fetch_error (send (requests_of (trace w)) r) = Some e →
        is_RequestException e = false →
        run = (Raise e, logged (EvHttp r) w)).
Proof.
  intros Hr r run. unfold run, Api.fetch_data_with_retry.
  destruct (Z.to_nat retries) as [|budget] eqn:Hb; [lia|].
  cbn [Api.retry_loop]. destruct (Z.ltb_spec 0 retries); [|lia].
  unfold try_except. split.
  - intros Hm. rewrite (fetch_data_unsupported _ _ _ _ _ _ _ Hm). reflexivity.
  - intros Hm e He Hreq.
    rewrite (fetch_data_fails _ _ _ _ _ _ _ _ Hm He), Hreq.
    unfold after_error. rewrite Hreq. reflexivity.
Qed.

Lemma fetch_data_with_retry_other_errors_witness :
  (@Api.fetch_data_with_retry
     (Doubles.scripted [NetResp (Doubles.ok_response "[3]" ∅)])
     Doubles.json_double Doubles.api "items" None "PATCH" None None 3
     Doubles.empty_world) =
    (Raise (mkExn ValueError "Unsupported HTTP method: PATCH"),
     Doubles.empty_world) ∧
  length (requests_of (trace
    (@Api.fetch_data_with_retry
       (Doubles.scripted [NetExn (mkExn ValueError "bad port");
                          NetResp (Doubles.ok_response "[3]" ∅)])
       Doubles.json_double Doubles.api "items" None "GET" None None 3
       Doubles.empty_world).2)) = 1%nat.
Proof.
  split.
  - apply (@fetch_data_with_retry_other_errors
             (Doubles.scripted [NetResp (Doubles.ok_response "[3]" ∅)])
             Doubles.json_double Doubles.api "items" None "PATCH" None None 3
             Doubles.empty_world); [lia|reflexivity].
  - rewrite (proj2 (@fetch_data_with_retry_other_errors
               (Doubles.scripted [NetExn (mkExn ValueError "bad port");
                                  NetResp (Doubles.ok_response "[3]" ∅)])
               Doubles.json_double Doubles.api "items" None "GET" None None 3
               Doubles.empty_world ltac:(lia)) eq_refl
               (mkExn ValueError "bad port") eq_refl eq_refl).
    reflexivity.
Defined.

(** X3.  The retry wrapper always comes to an end, and it sends the same
    call at most [retries] times (never, when [retries] is negative),
    whatever the remote side answers. *)
Theorem fetch_data_with_retry_bounded `{RequestsLib, JsonLib}
    (self : Api.APIFetcher) (endpoint : string) (params : option loc)
    (method : string) (data : option Body) (json : option Json)
    (retries : Z) (w : World) :
  let r := api_call self (Api.base_url self +:+ "/" +:+ endpoint)
             (snap params w) method data json in
  let run := Api.fetch_data_with_retry self endpoint params method data json
               retries w in
  run.1 ≠ Diverge ∧
  ∃ n, requests_of (trace run.2) = requests_of (trace w) ++ replicate n r ∧
       Z.of_nat n ≤ Z.max 0 retries.
Proof.
  intros r run.
  destruct (retry_loop_bounded self endpoint params method data json retries
              (Z.to_nat retries) 0 w) as (Hdiv & n & Hn & Hle); [lia|].
  split; [exact Hdiv|]. exists n. split; [exact Hn|lia].
Qed.

(** X4.  [fetch_status_code] only ever returns the status of a response
    that [raise_for_status] let through: the status of an HTTP error is
    not returned, the error is raised. *)
Theorem fetch_status_code_accepted `{RequestsLib}
    (self : Api.APIFetcher) (endpoint : string) (params : option loc)
    (w w' : World) (code : Z) :
  Api.fetch_status_code self endpoint params w = (Ret code, w') →
  ∃ resp,
    send (requests_of (trace w))
      (api_call self (Api.base_url self +:+ "/" +:+ endpoint) (snap params w)
         "GET" None None) = NetResp resp ∧
    raise_for_status resp = None ∧ code = status_code resp.
Proof.
  unfold Api.fetch_status_code. cbv zeta. rewrite bind_unfold.
  rewrite make_request_sent by reflexivity. cbv zeta.
  destruct (send _ _) as [resp|e]; [|done].
  destruct (raise_for_status resp) eqn:Hok; [done|].
  intros [= <- _]. by exists resp.
Qed.

Lemma fetch_status_code_accepted_witness :
  ∃ resp, status_code resp = 204 ∧
          @raise_for_status
            (Doubles.scripted [NetResp (mkResponse 204 ∅ EmptyString ∅)]) resp = None.
Proof.
  destruct (@fetch_status_code_accepted
              (Doubles.scripted [NetResp (mkResponse 204 ∅ EmptyString ∅)])
              Doubles.api "items" None Doubles.empty_world _ 204 eq_refl)
    as (resp & _ & Hok & Hcode).
  exists resp. split; [by symmetry|exact Hok].
Defined.

(** X5.  When [params] is [None] or an empty dictionary,
    [fetch_paginated_data] writes the page numbers into a dictionary of
    its own: every dictionary that existed before the call reads the same
    after it, whatever the outcome. *)
Theorem fetch_paginated_data_fresh_params `{RequestsLib, JsonLib}
    (self : Api.APIFetcher) (endpoint : string) (params : option loc)
    (method : string) (data : option Body) (json : option Json)
    (next_page_param : string) (start_page : Z) (fuel : nat) (w : World) :
  base_dict params w = ∅ →
  ∀ l d, heap w !! l = Some d →
    heap (Api.fetch_paginated_data fuel self endpoint params method data json
            next_page_param start_page w).2 !! l = Some d.
Proof.
  intros Hempty l d Hl. unfold Api.fetch_paginated_data.
  rewrite paginated_loop_frame; [exact Hl|].
  assert (Hfresh : param_loc params w = fresh (dom (heap w))).
  { unfold param_loc. destruct params; [|done]. by rewrite decide_True. }
  rewrite Hfresh. intros ->.
  apply (is_fresh (dom (heap w))), elem_of_dom. by eexists.
Qed.

(** The caller's empty dictionary at location 1 is still empty after two
    pages were fetched. *)
Lemma fetch_paginated_data_fresh_params_witness :
  heap (@Api.fetch_paginated_data
          (Doubles.scripted
             [NetResp (Doubles.ok_response "[1, 2]" (Doubles.next_link "more"));
              NetResp (Doubles.ok_response "[3]" ∅)])
          Doubles.json_double 5 Doubles.api "items" (Some 1%positive) "GET"
          None None "page" 1 (mkWorld {[1%positive := ∅]} [] [])).2
    !! 1%positive = Some ∅.
Proof.
  apply (@fetch_paginated_data_fresh_params
           (Doubles.scripted
              [NetResp (Doubles.ok_response "[1, 2]" (Doubles.next_link "more"));
               NetResp (Doubles.ok_response "[3]" ∅)])
           Doubles.json_double);
    reflexivity.
Defined.

(** X6.  Nothing caps the number of pages: on a source whose every page
    is answered with a "next" link relation, [fetch_paginated_data] makes
    one call per turn for as long as it is let run, and returns
    nothing. *)
Theorem fetch_paginated_data_no_cap `{RequestsLib, JsonLib}
    (self : Api.APIFetcher) (endpoint : string) (params : option loc)
    (method : string) (data : option Body) (json : option Json)
    (next_page_param : string) (start_page : Z) (w : World) :
  let call := page_call self endpoint (base_dict params w) method data json
                next_page_param in
  supported method = true →
  (∀ past n, ∃ resp items,
     send past (call n) = NetResp resp ∧
     raise_for_status resp = None ∧
     json_loads (text resp) = Some (JList items) ∧
     is_Some (links resp !! "next")) →
  ∀ fuel,
    let run := Api.fetch_paginated_data fuel self endpoint params method data
                 json next_page_param start_page w in
    run.1 = Diverge ∧
    requests_of (trace run.2) = requests_of (trace w) ++ calls call start_page fuel.
Proof.
  intros call Hm Hsrc fuel.
  exact (paginated_loop_endless self endpoint method data json next_page_param
           fuel Hm params start_page [] w Hsrc).
Qed.

Lemma fetch_paginated_data_no_cap_witness :
  let run := @Api.fetch_paginated_data Doubles2.endless_api Doubles.json_double
               7 Doubles.api "items" None "GET" None None "page" 1
               Doubles.empty_world in
  run.1 = Diverge ∧ length (requests_of (trace run.2)) = 7%nat.
Proof.
  destruct (@fetch_paginated_data_no_cap Doubles2.endless_api
              Doubles.json_double Doubles.api "items" None "GET" None None
              "page" 1 Doubles.empty_world eq_refl) with (fuel := 7%nat)
    as [Hdiv Hreq].
  - intros past n. exists (Doubles.ok_response "[3]" (Doubles.next_link "more")),
      [JNum 3].
    repeat split; by eexists.
  - cbv zeta. rewrite Hdiv, Hreq. split; reflexivity.
Defined.

(** X7.  The dispatch of [_make_request].  The method is compared as
    written: GET, POST, PUT and DELETE send one call to the URL with the
    [params] given; the [data] and [json] of the caller go out with POST
    and PUT and are left out of GET and DELETE.  Any other method is a
    [ValueError] and nothing is sent. *)
Theorem make_request_dispatch `{RequestsLib}
    (self : Api.APIFetcher) (url : string) (params : option loc)
    (method : string) (data : option Body) (json : option Json) (w : World) :
  let run := Api._make_request self url params method data json w in
  (method ∉ ["GET"; "POST"; "PUT"; "DELETE"] →
   run = (Raise (mkExn ValueError ("Unsupported HTTP method: " +:+ method)), w)) ∧
  (method ∈ ["GET"; "POST"; "PUT"; "DELETE"] →
   ∃ r, requests_of (trace run.2) = requests_of (trace w) ++ [r] ∧
        req_method r = method ∧ req_url r = url ∧
        req_headers r = Api.headers self ∧ req_params r = snap params w ∧
        (method ∈ ["GET"; "DELETE"] → req_data r = None ∧ req_json r = None) ∧
        (method ∈ ["POST"; "PUT"] → req_data r = data ∧ req_json r = json)).
Proof.
  intros run. split.
  - intros Hm. apply make_request_unsupported.
    destruct (supported method) eqn:Hs; [|done].
    by apply supported_elem in Hs.
  - intros Hm. pose proof (proj2 (supported_elem method) Hm) as Hs.
    exists (api_call self url (snap params w) method data json).
    split.
    + unfold run. rewrite (make_request_sent _ _ _ _ _ _ _ Hs). cbv zeta.
      destruct (send _ _) as [resp|e]; [|apply requests_after_error].
      destruct (raise_for_status resp); [apply requests_after_error|].
      apply requests_of_snoc.
    + repeat split;
        match goal with
        | Hg : _ ∈ [_; _] |- _ =>
            unfold api_call, has_body;
            rewrite !elem_of_cons, elem_of_nil in Hg;
            destruct Hg as [->|[->|[]]]; done
        end.
Qed.

(** A DELETE with a JSON body sends no body; the method written
    in lower case is not dispatched. *)
Lemma make_request_dispatch_witness :
  (req_json <$> requests_of (trace
     (@Api._make_request (Doubles.scripted []) Doubles.api "http://api/items/9"
        None "DELETE" None (Some (JNum 7)) Doubles.empty_world).2)) = [None] ∧
  @Api._make_request (Doubles.scripted []) Doubles.api "http://api/items/9"
    None "get" None None Doubles.empty_world =
    (Raise (mkExn ValueError "Unsupported HTTP method: get"), Doubles.empty_world).
Proof.
  split.
  - destruct (proj2 (@make_request_dispatch (Doubles.scripted []) Doubles.api
                       "http://api/items/9" None "DELETE" None (Some (JNum 7))
                       Doubles.empty_world))
      as (r & Hreq & _ & _ & _ & _ & Hget & _); [set_solver|].
    rewrite Hreq. cbn. destruct Hget as [_ ->]; [set_solver|]. reflexivity.
  - apply (proj1 (@make_request_dispatch (Doubles.scripted []) Doubles.api
                    "http://api/items/9" None "get" None None
                    Doubles.empty_world)).
    rewrite !not_elem_of_cons. repeat split; try discriminate. apply not_elem_of_nil.
Defined.

(** ** WebScraper *)

Section WebMore.
Context `{RequestsLib, UrlLib, Bs4Lib}.
Context {Item : Type}.
Implicit Types (self : Web.WebScraper) (w : World)
  (parser_func : Soup → list Item).

(** A page that leads back to itself keeps the loop going. *)
Lemma handle_pagination_endless self parser_func params method selector url
    resp href fuel :
  web_supported method = true →
  truthy url = true →
  Web.robot_parser self (Web.user_agent self) (urljoin (Web.base_url self) url)
    = true →
  (∀ past, send past (web_call self url params method) = NetResp resp) →
  raise_for_status resp = None →
  next_href (BeautifulSoup (text resp)) selector = Some href →
  urljoin (Web.base_url self) href = url →
  ∀ acc w,
    let run := Web.handle_pagination_loop fuel self url parser_func params
                 method selector acc w in
    run.1 = Diverge ∧
    requests_of (trace run.2) =
      requests_of (trace w) ++ replicate fuel (web_call self url params method).
Proof.
  intros Hm Hurl Hallowed Hsend Hok Hnext Hback.
  induction fuel as [|fuel IH]; intros acc w run; unfold run.
  - cbn. rewrite Hurl. cbn. by rewrite app_nil_r.
  - rewrite handle_pagination_step, Hurl.
    destruct (fetch_page_ok self url params method w resp Hm Hallowed
                (Hsend _) Hok) as (w1 & -> & Hw1).
    cbv beta iota zeta. rewrite Hnext, Hback.
    destruct (IH (acc ++ parser_func (BeautifulSoup (text resp))) w1)
      as [Hdiv Hreq].
    cbv zeta in Hdiv, Hreq. split; [exact Hdiv|].
    rewrite Hreq, Hw1, <- app_assoc. reflexivity.
Qed.

End WebMore.

(** X8.  On a page without a "next" link, and when the fetch fails,
    [handle_pagination] does what [scrape_data] does with the same
    arguments: the same outcome (the items of the page, or the error of
    the fetch) and the same effects. *)
Theorem handle_pagination_single_page `{RequestsLib, UrlLib, Bs4Lib} {Item}
    (self : Web.WebScraper) (url : string) (parser_func : Soup → list Item)
    (params : option dict) (method selector : string) (fuel : nat) (w : World) :
  truthy url = true →
  (∀ html w1, Web.fetch_page self url params method w = (Ret html, w1) →
              next_href (BeautifulSoup html) selector = None) →
  Web.handle_pagination (S fuel) self url parser_func params method selector w =
    Web.scrape_data self url parser_func params method w.
Proof.
  intros Hurl Hlast. unfold Web.handle_pagination, Web.scrape_data.
  rewrite handle_pagination_step, Hurl, bind_unfold.
  destruct (Web.fetch_page self url params method w) as [[html|e|] w1] eqn:Hf;
    try reflexivity.
  cbv zeta. rewrite (Hlast html w1 eq_refl). reflexivity.
Qed.

Lemma handle_pagination_single_page_witness :
  @Web.handle_pagination Doubles.shop_site Doubles.url_double Doubles.shop_docs
    _ 1 Doubles.shop "/p2" Doubles.li_texts None "GET" "a.next"
    Doubles.empty_world =
  @Web.scrape_data Doubles.shop_site Doubles.url_double Doubles.shop_docs _
    Doubles.shop "/p2" Doubles.li_texts None "GET" Doubles.empty_world.
Proof.
  apply (@handle_pagination_single_page Doubles.shop_site Doubles.url_double
           Doubles.shop_docs); [reflexivity|].
  intros html w1 Hf. vm_compute in Hf. injection Hf as <- _. reflexivity.
Defined.

(** X9.  The dispatch of [fetch_page], once robots.txt allows the URL.  A
    GET sends [params] as the query parameters and no body; a POST sends
    them as the form data and no query parameters; both carry the headers
    and the cookies of the scraper.  Any other method, PUT and DELETE
    among them, is a [ValueError] after the robots question, and nothing
    is sent. *)
Theorem fetch_page_dispatch `{RequestsLib, UrlLib}
    (self : Web.WebScraper) (url : string) (params : option dict)
    (method : string) (w : World) :
  let full_url := urljoin (Web.base_url self) url in
  let run := Web.fetch_page self url params method w in
  Web.robot_parser self (Web.user_agent self) full_url = true →
  (method ∉ ["GET"; "POST"] →
   run = (Raise (mkExn ValueError ("Unsupported HTTP method: " +:+ method)),
          logged (EvPolicy (Web.user_agent self) full_url) w)) ∧
  (method ∈ ["GET"; "POST"] →
   ∃ r, requests_of (trace run.2) = requests_of (trace w) ++ [r] ∧
        req_method r = method ∧ req_url r = full_url ∧
        req_headers r = Web.headers self ∧
        req_cookies r = Some (Web.cookies self) ∧ req_json r = None ∧
        (method = "GET" → req_params r = params ∧ req_data r = None) ∧
        (method = "POST" →
         req_params r = None ∧ req_data r = BodyForm <$> params)).
Proof.
  intros full_url run Hallowed. unfold run. rewrite fetch_page_eq. cbv zeta.
  fold full_url. rewrite Hallowed. split.
  - intros Hm. rewrite !not_elem_of_cons in Hm. destruct Hm as (Hg & Hp & _).
    unfold web_supported.
    destruct (String.eqb_spec method "GET"); [done|].
    destruct (String.eqb_spec method "POST"); [done|]. reflexivity.
  - intros Hm. exists (web_call self url params method).
    assert (Hs : web_supported method = true).
    { unfold web_supported. rewrite !elem_of_cons, elem_of_nil in Hm.
      destruct Hm as [->|[->|[]]]; reflexivity. }
    rewrite Hs. split.
    + assert (Hone : ∀ ua u r, requests_of (trace (logged (EvHttp r)
                                                     (logged (EvPolicy ua u) w))) =
                               requests_of (trace w) ++ [r]).
      { intros. cbn. by rewrite requests_of_snoc, requests_of_policy. }
      destruct (send _ _) as [resp|e]; [|apply Hone].
      destruct (raise_for_status resp); apply Hone.
    + unfold web_call. cbv zeta. repeat split; cbn; by subst.
Qed.

Lemma fetch_page_dispatch_witness :
  let form : dict := {["q" := PStr "nuts"]} in
  (λ r, (req_params r, req_data r)) <$> requests_of (trace
     (@Web.fetch_page Doubles.shop_site Doubles.url_double Doubles.shop "/p1"
        (Some form) "POST" Doubles.empty_world).2) =
    [(None, Some (BodyForm form))] ∧
  (@Web.fetch_page Doubles.shop_site Doubles.url_double Doubles.shop "/p1"
     None "PUT" Doubles.empty_world).1 =
    Raise (mkExn ValueError "Unsupported HTTP method: PUT").
Proof.
  intros form. split.
  - destruct (proj2 (@fetch_page_dispatch Doubles.shop_site Doubles.url_double
                       Doubles.shop "/p1" (Some form) "POST"
                       Doubles.empty_world eq_refl))
      as (r & Hreq & _ & _ & _ & _ & _ & _ & Hpost); [set_solver|].
    destruct (Hpost eq_refl) as [Hp Hd]. rewrite Hreq. cbn.
    rewrite Hp, Hd. reflexivity.
  - rewrite (proj1 (@fetch_page_dispatch Doubles.shop_site Doubles.url_double
                      Doubles.shop "/p1" None "PUT" Doubles.empty_world
                      eq_refl)); [reflexivity|].
    rewrite !not_elem_of_cons. repeat split; try discriminate.
    apply not_elem_of_nil.
Defined.

(** X10.  Nothing caps the number of pages, and nothing remembers the
    pages seen: on a page whose "next" link leads back to it,
    [handle_pagination] fetches the page once per turn for as long as it
    is let run, and returns nothing. *)
Theorem handle_pagination_cycle `{RequestsLib, UrlLib, Bs4Lib} {Item}
    (self : Web.WebScraper) (url : string) (parser_func : Soup → list Item)
    (params : option dict) (method selector : string)
    (resp : Response) (href : string) (w : World) :
  web_supported method = true →
  truthy url = true →
  Web.robot_parser self (Web.user_agent self) (urljoin (Web.base_url self) url)
    = true →
  (∀ past, send past (web_call self url params method) = NetResp resp) →
  raise_for_status resp = None →
  next_href (BeautifulSoup (text resp)) selector = Some href →
  urljoin (Web.base_url self) href = url →
  ∀ fuel,
    let run := Web.handle_pagination fuel self url parser_func params method
                 selector w in
    run.1 = Diverge ∧
    requests_of (trace run.2) =
      requests_of (trace w) ++ replicate fuel (web_call self url params method).
Proof.
  intros Hm Hurl Hallowed Hsend Hok Hnext Hback fuel.
  exact (handle_pagination_endless self parser_func params method selector url
           resp href fuel Hm Hurl Hallowed Hsend Hok Hnext Hback [] w).
Qed.

Lemma handle_pagination_cycle_witness :
  let run := @Web.handle_pagination Doubles2.loop_site Doubles.url_double
               Doubles2.loop_docs _ 6 Doubles.shop "http://site/p1"
               Doubles.li_texts None "GET" "a.next" Doubles.empty_world in
  run.1 = Diverge ∧ length (requests_of (trace run.2)) = 6%nat.
Proof.
  destruct (@handle_pagination_cycle Doubles2.loop_site Doubles.url_double
              Doubles2.loop_docs _ Doubles.shop "http://site/p1"
              Doubles.li_texts None "GET" "a.next"
              (Doubles.ok_response "loop" ∅) "/p1" Doubles.empty_world)
    with (fuel := 6%nat) as [Hdiv Hreq]; try reflexivity.
  cbv zeta. rewrite Hdiv, Hreq. split; reflexivity.
Defined.



(** ** WebScraper: the extractors *)

Section Extractors.
Context `{Extract.Bs4Query}.



Lemma metadata_step_lookup d meta k :
  Extract.metadata_step d meta !! k =
    if decide (meta_key meta = Some k) then Some (meta_content meta) else d !! k.
Proof.
  unfold Extract.metadata_step, meta_key, meta_content.
  destruct (Extract.get_truthy meta "name") as [name|].
  - rewrite lookup_insert. destruct (decide (name = k)) as [->|Hne].
    + by rewrite decide_True.
    + rewrite decide_False; [done|congruence].
  - destruct (Extract.get_truthy meta "property") as [property|].
    + rewrite lookup_insert. destruct (decide (property = k)) as [->|Hne].
      * by rewrite decide_True.
      * rewrite decide_False; [done|congruence].
    + by rewrite decide_False.
Qed.

Lemma metadata_fold_lookup metas k :
  ∀ d, foldl Extract.metadata_step d metas !! k =
         match last (omap (λ m, if decide (meta_key m = Some k)
                                then Some (meta_content m) else None) metas) with
         | Some v => Some v
         | None => d !! k
         end.
Proof.
  induction metas as [|m metas IH]; intros d; [done|].
  cbn [foldl omap list_omap]. rewrite IH, metadata_step_lookup.
  destruct (decide (meta_key m = Some k)); [|done].
  rewrite last_cons. by destruct (last _).
Qed.

Lemma table_fold headers trs :
  ∀ rows, foldl (Extract.table_step headers) rows trs =
            rows ++ omap (λ tr,
                      let cells := Extract.get_text <$> Extract.tag_find_all tr "td" in
                      if decide (length cells = length headers)
                      then Some (Extract.dict_of (zip headers cells)) else None) trs.
Proof.
  induction trs as [|tr trs IH]; intros rows; cbn [foldl omap list_omap].
  - by rewrite app_nil_r.
  - rewrite IH. unfold Extract.table_step. cbv zeta.
    destruct (decide _); [by rewrite <- app_assoc|done].
Qed.

Lemma dom_dict_fold {V} (pairs : list (string * V)) :
  ∀ d : gmap string V,
    dom (foldl (λ d kv, <[kv.1 := kv.2]> d) d pairs) =
      dom d ∪ (list_to_set pairs.*1 : gset string).
Proof.
  induction pairs as [|[k v] pairs IH]; intros d; cbn.
  - set_solver.
  - rewrite IH, dom_insert_L. set_solver.
Qed.

End Extractors.



(** X13.  In the dictionary of [extract_metadata] a key reads the
    [content] of the last [meta] tag filed under it ([name] before
    [property], empty values not counting), the empty string when that
    tag has no [content]; a key no tag is filed under is absent. *)
Theorem extract_metadata_last_wins `{Extract.Bs4Query}
    (self : Web.WebScraper) (soup : Soup) (k : string) :
  Extract.extract_metadata self soup !! k =
    last (omap (λ m, if decide (meta_key m = Some k)
                     then Some (meta_content m) else None)
            (Extract.find_all soup "meta")).
Proof.
  unfold Extract.extract_metadata. rewrite metadata_fold_lookup.
  rewrite lookup_empty. by destruct (last _).
Qed.

(** X14.  [extract_table] returns nothing when the selector finds no
    table.  Otherwise the rows come from the [tr] elements after the
    first, in order, one row for each [tr] that has as many [td] cells as
    the table has [th] cells; the other [tr] elements give nothing.
    Every row returned has the header texts as its keys. *)
Theorem extract_table_rows `{Extract.Bs4Query}
    (self : Web.WebScraper) (soup : Soup) (css_selector : string) :
  (select_one soup css_selector = None →
   Extract.extract_table self soup css_selector = []) ∧
  (∀ table, select_one soup css_selector = Some table →
     let headers := Extract.get_text <$> Extract.tag_find_all table "th" in
     let cells tr := Extract.get_text <$> Extract.tag_find_all tr "td" in
     Extract.extract_table self soup css_selector =
       (λ tr, Extract.dict_of (zip headers (cells tr))) <$>
         List.filter (λ tr, bool_decide (length (cells tr) = length headers))
           (drop 1 (Extract.tag_find_all table "tr")) ∧
     ∀ row, row ∈ Extract.extract_table self soup css_selector →
            dom row = list_to_set headers).
Proof.
  unfold Extract.extract_table. split; [by intros ->|].
  intros table ->.
  set (headers := Extract.get_text <$> Extract.tag_find_all table "th").
  set (cells := λ tr, Extract.get_text <$> Extract.tag_find_all tr "td").
  rewrite table_fold. cbn [app]. cbv zeta.
  assert (Heq : ∀ trs,
            omap (λ tr, if decide (length (cells tr) = length headers)
                        then Some (Extract.dict_of (zip headers (cells tr)))
                        else None) trs =
            (λ tr, Extract.dict_of (zip headers (cells tr))) <$>
              List.filter (λ tr, bool_decide (length (cells tr) = length headers))
                trs).
  { induction trs as [|tr trs IH]; [done|]. cbn.
    destruct (decide _) as [Hlen|Hlen].
    - rewrite bool_decide_eq_true_2 by done. cbn. by rewrite IH.
    - rewrite bool_decide_eq_false_2 by done. exact IH. }
  unfold cells in Heq. rewrite Heq. split; [done|].
  intros row (tr & -> & Htr)%list_elem_of_fmap.
  apply list_elem_of_In, filter_In in Htr. destruct Htr as [_ Hlen].
  apply bool_decide_eq_true_1 in Hlen.
  unfold Extract.dict_of. rewrite dom_dict_fold, dom_empty_L, fst_zip by lia.
  set_solver.
Qed.

(** The page double: a table of two columns, a full row and a short one;
    the page has no list. *)
Lemma extract_table_rows_witness :
  @Extract.extract_table Doubles2.page_docs Doubles2.page_query Doubles.shop
    Doubles2.page_tags "table" = [{["name" := "nut"; "qty" := "3"]}] ∧
  @Extract.extract_table Doubles2.page_docs Doubles2.page_query Doubles.shop
    Doubles2.page_tags "ul" = [].
Proof.
  split.
  - destruct (proj2 (@extract_table_rows Doubles2.page_docs Doubles2.page_query
                       Doubles.shop Doubles2.page_tags "table")
                (mkTag "table" {["id" := "t"]} None)) as [Heq _].
    + reflexivity.
    + rewrite Heq. vm_compute. reflexivity.
  - apply (proj1 (@extract_table_rows Doubles2.page_docs Doubles2.page_query
                    Doubles.shop Doubles2.page_tags "ul")).
    reflexivity.
Defined.

(** X15.  The dictionary of [extract_headings] always has the six keys
    h1 to h6 and no other; each reads the texts of the elements of that
    name, the empty list when the document has none. *)
Theorem extract_headings_keys `{Extract.Bs4Query}
    (self : Web.WebScraper) (soup : Soup) (k : string) :
  Extract.extract_headings self soup !! k =
    if decide (k ∈ ["h1"; "h2"; "h3"; "h4"; "h5"; "h6"])
    then Some (Extract.get_text <$> Extract.find_all soup k)
    else None.
Proof.
  unfold Extract.extract_headings.
  change (seqZ 1 6) with [1; 2; 3; 4; 5; 6]. cbn [foldl].
  change ("h" +:+ pretty 1) with "h1". change ("h" +:+ pretty 2) with "h2".
  change ("h" +:+ pretty 3) with "h3". change ("h" +:+ pretty 4) with "h4".
  change ("h" +:+ pretty 5) with "h5". change ("h" +:+ pretty 6) with "h6".
  rewrite !lookup_insert, lookup_empty.
  repeat (case_decide; [subst k; by rewrite decide_True by set_solver|]).
  rewrite decide_False; [done|]. set_solver.
Qed.

(** ** DataCleaner: the two patterns *)

Section Patterns.

Lemma tag_free_app pre post : tag_free (pre ++ post) = true → tag_free post = true.
Proof.
  induction pre as [|c pre IH]; [done|]. cbn [app tag_free].
  intros [_ Hs]%andb_prop. by apply IH.
Qed.

Lemma tag_free_no_match s : tag_free s = true → match_len Cleaner.tag_re s = None.
Proof.
  destruct s as [|c s]; [done|]. rewrite match_len_tag. cbn [tag_free].
  intros [Hc _]%andb_prop. destruct (N.eqb c 60); [|done].
  apply negb_true_iff, closes_closing in Hc. by rewrite Hc.
Qed.

Lemma closes_no_gt s : 62%N ∉ s → closes s = false.
Proof.
  induction s as [|c s IH]; [done|]. rewrite not_elem_of_cons. intros [Hc Hs].
  cbn. destruct (N.eqb_spec c 62); [done|]. destruct (N.eqb c 10); [done|].
  by apply IH.
Qed.

Lemma tag_free_no_gt s : 62%N ∉ s → tag_free s = true.
Proof.
  induction s as [|c s IH]; [done|]. rewrite not_elem_of_cons. intros [Hc Hs].
  cbn [tag_free]. rewrite (IH Hs), (closes_no_gt s Hs).
  by destruct (N.eqb c 60).
Qed.

Lemma tag_free_no_lt s : 60%N ∉ s → tag_free s = true.
Proof.
  induction s as [|c s IH]; [done|]. rewrite not_elem_of_cons. intros [Hc Hs].
  cbn [tag_free]. rewrite (IH Hs).
  destruct (N.eqb_spec c 60); [done|done].
Qed.

Lemma strip_sublist s : sublist (Re.sub Cleaner.tag_re s) s.
Proof.
  remember (length s) as n eqn:Hn.
  assert (Hle : (length s ≤ n)%nat) by lia. clear Hn. revert s Hle.
  induction n as [|n IH]; intros [|c s] Hle; try (cbn in Hle; lia);
    try done.
  cbn in Hle. rewrite strip_cons.
  assert (Hkeep : sublist (c :: Re.sub Cleaner.tag_re s) (c :: s))
    by (apply sublist_skip, IH; lia).
  destruct (N.eqb c 60); [|exact Hkeep].
  destruct (closing s) as [m|]; [|exact Hkeep].
  apply sublist_cons. etransitivity; [apply IH|apply sublist_drop].
  rewrite length_drop. lia.
Qed.

(** A pattern of one character class takes out the characters of the
    class and keeps the others. *)
Lemma sub_char_class (set : N → bool) s :
  Re.sub [One (NotIn set)] s = List.filter set s.
Proof.
  induction s as [|c s IH]; [done|].
  rewrite sub_cons. cbn [match_len atom_matches List.filter].
  destruct (set c); cbn -[Re.sub]; [f_equal|]; exact IH.
Qed.

Lemma filter_filter_same {A} (f : A → bool) (l : list A) :
  List.filter f (List.filter f l) = List.filter f l.
Proof.
  induction l as [|x l IH]; [done|]. cbn. destruct (f x) eqn:Hx; [|done].
  cbn. by rewrite Hx, IH.
Qed.

End Patterns.

(** X16.  [remove_html_tags] leaves nothing for itself to do: in its
    result the pattern ['<.*?>'] matches at no position, and applying it
    again changes nothing. *)
Theorem remove_html_tags_idempotent `{Cleaner.StrLib, Cleaner.NltkLib}
    (self : Cleaner.DataCleaner) (text : str) :
  Cleaner.remove_html_tags self (Cleaner.remove_html_tags self text) =
    Cleaner.remove_html_tags self text ∧
  ∀ pre post, Cleaner.remove_html_tags self text = pre ++ post →
              match_len Cleaner.tag_re post = None.
Proof.
  unfold Cleaner.remove_html_tags. cbv zeta. split.
  - apply strip_tag_free, tag_free_strip.
  - intros pre post Heq. apply tag_free_no_match, (tag_free_app pre).
    rewrite <- Heq. apply tag_free_strip.
Qed.

Lemma remove_html_tags_idempotent_witness :
  let strip := @Cleaner.remove_html_tags Doubles.cleaner in
  strip (of_string "a <b>c</b> < d") = of_string "a c < d" ∧
  match_len Cleaner.tag_re (of_string "< d") = None.
Proof.
  split; [reflexivity|].
  apply (proj2 (@remove_html_tags_idempotent Doubles.str_double
                  Doubles.nltk_double Doubles.cleaner
                  (of_string "a <b>c</b> < d")) (of_string "a c ")).
  reflexivity.
Defined.

(** X17.  [remove_html_tags] only takes characters out: its result is a
    subsequence of the text.  A text without ['<'], or without ['>'],
    comes back as it is. *)
Theorem remove_html_tags_sublist `{Cleaner.StrLib, Cleaner.NltkLib}
    (self : Cleaner.DataCleaner) (text : str) :
  sublist (Cleaner.remove_html_tags self text) text ∧
  (60%N ∉ text ∨ 62%N ∉ text → Cleaner.remove_html_tags self text = text).
Proof.
  unfold Cleaner.remove_html_tags. cbv zeta. split; [apply strip_sublist|].
  intros [Hlt|Hgt]; apply strip_tag_free;
    [by apply tag_free_no_lt|by apply tag_free_no_gt].
Qed.

Lemma remove_html_tags_sublist_witness :
  @Cleaner.remove_html_tags Doubles.cleaner (of_string "1 > 0 and 3 > 2") =
    of_string "1 > 0 and 3 > 2".
Proof.
  apply (proj2 (@remove_html_tags_sublist Doubles.str_double Doubles.nltk_double
                  Doubles.cleaner (of_string "1 > 0 and 3 > 2"))).
  left. apply (bool_decide_unpack _). vm_compute. exact I.
Defined.

(** X18.  [remove_special_characters] keeps the ASCII letters and the
    blanks, and takes every other character out; the decimal digits are
    kept when [remove_digits] is true and taken out when it is false.
    Applying it again changes nothing. *)
Theorem remove_special_characters_filter `{Cleaner.StrLib, Cleaner.NltkLib}
    (self : Cleaner.DataCleaner) (text : str) (remove_digits : bool) :
  Cleaner.remove_special_characters self text remove_digits =
    List.filter (kept remove_digits) text ∧
  Cleaner.remove_special_characters self
    (Cleaner.remove_special_characters self text remove_digits) remove_digits =
    Cleaner.remove_special_characters self text remove_digits.
Proof.
  assert (Heq : ∀ t, Cleaner.remove_special_characters self t remove_digits =
                     List.filter (kept remove_digits) t).
  { intros t. unfold Cleaner.remove_special_characters, kept. cbv zeta.
    destruct remove_digits; cbn [negb andb]; rewrite sub_char_class.
    - reflexivity.
    - apply filter_ext. intros c. by rewrite orb_false_r. }
  split; [apply Heq|]. rewrite !Heq. apply filter_filter_same.
Qed.

(** ** DataCleaner: data frames, further *)

Section FramesMore.
Context `{Cleaner.StrLib, Cleaner.NltkLib}.
#[local] Existing Instance Cleaner.Cell_eq_dec.
Implicit Types (self : Cleaner.DataCleaner) (frames : Cleaner.Frames)
  (f g : Cleaner.DataFrame).

(** Normalizing the cells of a series touches no frame. *)
Lemma apply_pure self b1 b2 b3 b4 b5 b6 (series : list Cleaner.Cell) frames :
  (Cleaner.apply
     (λ text, Cleaner.normalize_cell self text b1 b2 b3 b4 b5 b6) series
     frames).2 = frames ∧
  (Cleaner.apply
     (λ text, Cleaner.normalize_cell self text b1 b2 b3 b4 b5 b6) series
     frames).1 ≠ Diverge.
Proof.
  induction series as [|c series [IH1 IH2]]; [done|].
  cbn [Cleaner.apply]. rewrite bind_unfold.
  assert (Hcell : ∃ o, o ≠ Diverge ∧
            Cleaner.normalize_cell self c b1 b2 b3 b4 b5 b6 frames = (o, frames)).
  { unfold Cleaner.normalize_cell, raise, mret, M_ret.
    destruct c; [| |];
      try destruct (b1 || b2), b3, (b4 || b5 || b6);
      (eexists; split; [|reflexivity]; done). }
  destruct Hcell as (o & Ho & ->). destruct o as [v|e|]; [|done|done].
  rewrite bind_unfold.
  destruct (Cleaner.apply _ series frames) as [[vs|e|] frames1];
    cbn in IH1, IH2 |- *; done.
Qed.

Lemma apply_disabled self (series : list Cleaner.Cell) frames :
  Cleaner.apply
    (λ text, Cleaner.normalize_cell self text false false false false false false)
    series frames = (Ret series, frames).
Proof.
  induction series as [|c series IH]; [done|].
  cbn [Cleaner.apply]. rewrite bind_unfold.
  replace (Cleaner.normalize_cell self c false false false false false false frames)
    with (Ret c : Outcome Cleaner.Cell, frames) by (by destruct c).
  rewrite bind_unfold, IH. reflexivity.
Qed.

Lemma insert_same_cell (cells : list Cleaner.Cell) j :
  <[j := default Cleaner.CNaN (cells !! j)]> cells = cells.
Proof.
  destruct (cells !! j) as [c|] eqn:Hj; cbn.
  - by apply list_insert_id.
  - apply list_insert_ge. by apply lookup_ge_None.
Qed.

Lemma reset_rows_snd f :
  (Cleaner.rows (Cleaner.reset_index_frame f)).*2 = (Cleaner.rows f).*2.
Proof.
  unfold Cleaner.reset_index_frame. cbn. rewrite fmap_imap.
  rewrite <- (imap_const snd). by apply imap_ext.
Qed.

Lemma reset_rows_fst f :
  (Cleaner.rows (Cleaner.reset_index_frame f)).*1 =
    Z.of_nat <$> seq 0 (length (Cleaner.rows f)).
Proof.
  unfold Cleaner.reset_index_frame. cbn. rewrite fmap_imap.
  rewrite <- imap_seq_0. by apply imap_ext.
Qed.

(** A frame is what its index and its cells are. *)
Lemma frame_eq f g :
  Cleaner.columns f = Cleaner.columns g →
  (Cleaner.rows f).*1 = (Cleaner.rows g).*1 →
  (Cleaner.rows f).*2 = (Cleaner.rows g).*2 →
  f = g.
Proof.
  destruct f as [cf rf], g as [cg rg]. cbn. intros -> H1 H2. f_equal.
  revert rg H1 H2. induction rf as [|[i c] rf IH]; intros [|[i' c'] rg];
    cbn; try done.
  intros [= -> H1] [= -> H2]. f_equal. by apply IH.
Qed.

Lemma filter_all {A} (P : A → Prop) `{∀ x, Decision (P x)} (l : list A) :
  Forall P l → filter P l = l.
Proof.
  induction 1 as [|x l Hx _ IH]; [done|].
  rewrite filter_cons_True by done. by rewrite IH.
Qed.

Lemma dropna_rows f :
  Forall (λ r, Cleaner.CNaN ∉ r.2) (Cleaner.rows (Cleaner.dropna_frame f)).
Proof.
  unfold Cleaner.dropna_frame. cbn. apply Forall_forall.
  intros r Hr%list_elem_of_filter. by destruct Hr.
Qed.

Lemma Forall_snd {A B} (P : B → Prop) (l : list (A * B)) :
  Forall (λ r, P r.2) l ↔ Forall P l.*2.
Proof. by rewrite Forall_fmap. Qed.

(** Cleaning a frame that misses nothing only renumbers it. *)
Lemma dropna_full f :
  Forall (λ r, Cleaner.CNaN ∉ r.2) (Cleaner.rows f) →
  Cleaner.dropna_frame f = f.
Proof.
  intros Hall. unfold Cleaner.dropna_frame. rewrite filter_all by done.
  by destruct f.
Qed.

Lemma reset_reset f :
  Cleaner.reset_index_frame (Cleaner.reset_index_frame f) =
    Cleaner.reset_index_frame f.
Proof.
  apply frame_eq; [done| |by rewrite reset_rows_snd].
  rewrite !reset_rows_fst. unfold Cleaner.reset_index_frame at 1. cbn.
  by rewrite length_imap.
Qed.

Lemma keep_first_spec (rs : list (Z * list Cleaner.Cell)) :
  ∀ seen,
    NoDup (Cleaner.keep_first seen rs).*2 ∧
    (∀ cells, cells ∈ (Cleaner.keep_first seen rs).*2 ↔
              cells ∈ rs.*2 ∧ cells ∉ seen) ∧
    sublist (Cleaner.keep_first seen rs) rs.
Proof.
  induction rs as [|r rs IH]; intros seen.
  - cbn. split; [constructor|]. split; [|done].
    intros cells. rewrite elem_of_nil. tauto.
  - cbn [Cleaner.keep_first]. destruct (decide (r.2 ∈ seen)) as [Hin|Hout].
    + destruct (IH seen) as (Hnd & Hmem & Hsub). split; [done|]. split.
      * intros cells. rewrite Hmem, fmap_cons, elem_of_cons.
        split; [tauto|]. intros [[->|?] ?]; tauto.
      * by apply sublist_cons.
    + destruct (IH (r.2 :: seen)) as (Hnd & Hmem & Hsub).
      rewrite !fmap_cons. split; [|split].
      * apply NoDup_cons. split; [|done]. rewrite Hmem, elem_of_cons. tauto.
      * intros cells. rewrite !elem_of_cons, Hmem, elem_of_cons.
        destruct (decide (cells = r.2)) as [->|Hne]; tauto.
      * by apply sublist_skip.
Qed.

Lemma keep_first_distinct (rs : list (Z * list Cleaner.Cell)) :
  ∀ seen, NoDup rs.*2 → (∀ cells, cells ∈ rs.*2 → cells ∉ seen) →
          Cleaner.keep_first seen rs = rs.
Proof.
  induction rs as [|r rs IH]; intros seen Hnd Hseen; [done|].
  rewrite fmap_cons in Hnd, Hseen. apply NoDup_cons in Hnd as [Hr Hnd].
  cbn [Cleaner.keep_first]. rewrite decide_False.
  - f_equal. apply IH; [done|]. intros cells Hc. rewrite not_elem_of_cons.
    split; [congruence|]. apply Hseen. by right.
  - apply Hseen. by left.
Qed.

Lemma drop_duplicates_again f :
  NoDup (Cleaner.rows f).*2 → Cleaner.drop_duplicates_frame f = f.
Proof.
  intros Hnd. unfold Cleaner.drop_duplicates_frame.
  rewrite keep_first_distinct; [by destruct f|done|].
  intros cells _. apply not_elem_of_nil.
Qed.

End FramesMore.

#[local] Existing Instance Cleaner.Cell_eq_dec.

(** X19.  [clean_column] writes nothing unless the whole column was
    normalized: when it raises, the frames are as they were before the
    call.  A column label the frame does not have is a [KeyError]. *)
Theorem clean_column_failure_atomic `{Cleaner.StrLib, Cleaner.NltkLib}
    (self : Cleaner.DataCleaner) (df : loc) (column_name : string)
    (remove_html remove_special_chars to_lower remove_stopwords
       use_stemming use_lemmatization : bool) (frames : Cleaner.Frames) :
  let run := Cleaner.clean_column self df column_name remove_html
               remove_special_chars to_lower remove_stopwords use_stemming
               use_lemmatization frames in
  (∀ e, run.1 = Raise e → run.2 = frames) ∧
  run.1 ≠ Diverge ∧
  (∀ f, frames !! df = Some f →
        Cleaner.get_loc column_name (Cleaner.columns f) = None →
        run = (Raise (mkExn KeyError column_name), frames)).
Proof.
  intros run. unfold run, Cleaner.clean_column, Cleaner.read_frame, gets.
  rewrite bind_unfold. cbv beta iota.
  split; [|split].
  - destruct (Cleaner.get_loc _ _) as [j|]; [|by intros e _].
    rewrite bind_unfold.
    destruct (apply_pure self remove_html remove_special_chars to_lower
                remove_stopwords use_stemming use_lemmatization
                ((λ r : Z * list Cleaner.Cell, default Cleaner.CNaN (r.2 !! j)) <$>
                   Cleaner.rows (default (Cleaner.mkDataFrame [] []) (frames !! df)))
                frames) as [Hpure _].
    destruct (Cleaner.apply _ _ frames) as [[vs|e|] frames1]; cbn in Hpure |- *;
      [done| |done].
    by intros e' _.
  - destruct (Cleaner.get_loc _ _) as [j|]; [|done].
    rewrite bind_unfold.
    destruct (apply_pure self remove_html remove_special_chars to_lower
                remove_stopwords use_stemming use_lemmatization
                ((λ r : Z * list Cleaner.Cell, default Cleaner.CNaN (r.2 !! j)) <$>
                   Cleaner.rows (default (Cleaner.mkDataFrame [] []) (frames !! df)))
                frames) as [_ Hdiv].
    destruct (Cleaner.apply _ _ frames) as [[vs|e|] frames1]; cbn in Hdiv |- *;
      done.
  - intros f -> Hj. cbn [default from_option id]. by rewrite Hj.
Qed.

(** The frame of reviews has no column price, and its column stars holds
    numbers: both calls raise and the frame at location 1 is as it was. *)
Lemma clean_column_failure_atomic_witness :
  let frames : Cleaner.Frames := {[1%positive := Doubles.reviews]} in
  @Cleaner.clean_column Doubles.str_double Doubles.nltk_double Doubles.cleaner
    1%positive "price" true true true true false false frames =
    (Raise (mkExn KeyError "price"), frames) ∧
  (@Cleaner.clean_column Doubles.str_double Doubles.nltk_double Doubles.cleaner
     1%positive "stars" true true true true false false frames).2 = frames.
Proof.
  intros frames. split.
  - apply (proj2 (proj2 (@clean_column_failure_atomic Doubles.str_double
                           Doubles.nltk_double Doubles.cleaner 1%positive
                           "price" true true true true false false frames))
             Doubles.reviews); reflexivity.
  - apply (proj1 (@clean_column_failure_atomic Doubles.str_double
                    Doubles.nltk_double Doubles.cleaner 1%positive "stars"
                    true true true true false false frames)
             (mkExn TypeError "expected string or bytes-like object")).
    reflexivity.
Defined.

(** X20.  With every step disabled [clean_column] changes nothing: the
    column is written back as it was, cells that are not text included. *)
Theorem clean_column_all_disabled `{Cleaner.StrLib, Cleaner.NltkLib}
    (self : Cleaner.DataCleaner) (df : loc) (column_name : string)
    (frames : Cleaner.Frames) (f : Cleaner.DataFrame) (j : nat) :
  frames !! df = Some f →
  Cleaner.get_loc column_name (Cleaner.columns f) = Some j →
  Cleaner.clean_column self df column_name false false false false false false
    frames = (Ret df, frames).
Proof.
  intros Hdf Hj. unfold Cleaner.clean_column, Cleaner.read_frame, gets.
  rewrite bind_unfold, Hdf. cbn [default from_option id].
  rewrite Hj, bind_unfold, apply_disabled.
  unfold Cleaner.write_frame, modify. rewrite bind_unfold.
  unfold mret, M_ret. do 2 f_equal.
  rewrite zip_with_fmap_same.
  replace ((λ x : Z * list Cleaner.Cell,
              (x.1, <[j := default Cleaner.CNaN (x.2 !! j)]> x.2)) <$> Cleaner.rows f)
    with (Cleaner.rows f).
  - replace (Cleaner.mkDataFrame (Cleaner.columns f) (Cleaner.rows f)) with f
      by (by destruct f).
    by apply insert_id.
  - rewrite <- (list_fmap_id (Cleaner.rows f)) at 1. apply list_fmap_ext.
    intros _ [i cells] _. cbn. by rewrite insert_same_cell.
Qed.

Lemma clean_column_all_disabled_witness :
  let frames : Cleaner.Frames := {[1%positive := Doubles.reviews]} in
  @Cleaner.clean_column Doubles.str_double Doubles.nltk_double Doubles.cleaner
    1%positive "stars" false false false false false false frames =
    (Ret 1%positive, frames).
Proof.
  intros frames.
  apply (@clean_column_all_disabled Doubles.str_double Doubles.nltk_double
           Doubles.cleaner 1%positive "stars" frames Doubles.reviews 1%nat);
    reflexivity.
Defined.



(** X22.  The frame [clean_dataframe] returns misses no value: it holds
    the rows of the argument that miss none, in their order, under the
    same column labels, and its index is 0, 1, 2, ... *)
Theorem clean_dataframe_no_missing (self : Cleaner.DataCleaner) (df : loc)
    (frames : Cleaner.Frames) (f : Cleaner.DataFrame) :
  frames !! df = Some f →
  ∃ l frames' g,
    Cleaner.clean_dataframe self df frames = (Ret l, frames') ∧
    frames' !! l = Some g ∧
    Cleaner.columns g = Cleaner.columns f ∧
    Forall (λ r, Cleaner.CNaN ∉ r.2) (Cleaner.rows g) ∧
    (Cleaner.rows g).*2 =
      (filter (λ r, Cleaner.CNaN ∉ r.2) (Cleaner.rows f)).*2 ∧
    (Cleaner.rows g).*1 = Z.of_nat <$> seq 0 (length (Cleaner.rows g)).
Proof.
  intros Hdf.
  destruct (two_new_frames frames df f Cleaner.dropna_frame
              Cleaner.reset_index_frame Hdf)
    as (l & frames' & Hrun & _ & _ & Hl & _).
  exists l, frames', (Cleaner.reset_index_frame (Cleaner.dropna_frame f)).
  split; [exact Hrun|]. split; [exact Hl|]. split; [done|].
  split; [|split].
  - apply (Forall_snd (λ cells, Cleaner.CNaN ∉ cells)). rewrite reset_rows_snd.
    apply (Forall_snd (λ cells, Cleaner.CNaN ∉ cells)), dropna_rows.
  - by rewrite reset_rows_snd.
  - rewrite reset_rows_fst. unfold Cleaner.reset_index_frame. cbn.
    by rewrite length_imap.
Qed.

Lemma clean_dataframe_no_missing_witness :
  ∃ frames' g,
    Cleaner.clean_dataframe Doubles.cleaner 1%positive
      {[1%positive := Doubles.reviews]} = (Ret 3%positive, frames') ∧
    frames' !! 3%positive = Some g ∧ (Cleaner.rows g).*1 = [0; 1].
Proof.
  assert (Hdf : ({[1%positive := Doubles.reviews]} : Cleaner.Frames) !! 1%positive =
                Some Doubles.reviews) by reflexivity.
  destruct (clean_dataframe_no_missing Doubles.cleaner 1%positive
              {[1%positive := Doubles.reviews]} Doubles.reviews Hdf)
    as (l & frames' & g & Hrun & Hl & _ & _ & Hcells & Hidx).
  assert (l = 3%positive) as ->.
  { apply (f_equal fst) in Hrun. vm_compute in Hrun. congruence. }
  exists frames', g. split; [exact Hrun|]. split; [exact Hl|].
  rewrite Hidx. apply (f_equal length) in Hcells.
  rewrite !length_fmap in Hcells. rewrite Hcells. reflexivity.
Defined.

(** X23.  The frame [drop_duplicate_rows] returns holds no two rows with
    the same cells, and the rows it holds are those of the argument: a
    row is in the one when it is in the other.  Their order is kept and
    the index is 0, 1, 2, ... *)
Theorem drop_duplicate_rows_distinct (self : Cleaner.DataCleaner) (df : loc)
    (frames : Cleaner.Frames) (f : Cleaner.DataFrame) :
  frames !! df = Some f →
  ∃ l frames' g,
    Cleaner.drop_duplicate_rows self df frames = (Ret l, frames') ∧
    frames' !! l = Some g ∧
    Cleaner.columns g = Cleaner.columns f ∧
    NoDup (Cleaner.rows g).*2 ∧
    (∀ cells, cells ∈ (Cleaner.rows g).*2 ↔ cells ∈ (Cleaner.rows f).*2) ∧
    sublist (Cleaner.rows g).*2 (Cleaner.rows f).*2 ∧
    (Cleaner.rows g).*1 = Z.of_nat <$> seq 0 (length (Cleaner.rows g)).
Proof.
  intros Hdf.
  destruct (two_new_frames frames df f Cleaner.drop_duplicates_frame
              Cleaner.reset_index_frame Hdf)
    as (l & frames' & Hrun & _ & _ & Hl & _).
  exists l, frames',
    (Cleaner.reset_index_frame (Cleaner.drop_duplicates_frame f)).
  destruct (keep_first_spec (Cleaner.rows f) []) as (Hnd & Hmem & Hsub).
  split; [exact Hrun|]. split; [exact Hl|]. split; [done|].
  rewrite reset_rows_snd, reset_rows_fst.
  unfold Cleaner.drop_duplicates_frame. cbn [Cleaner.rows].
  split; [exact Hnd|]. split; [|split].
  - intros cells. rewrite Hmem. split; [tauto|].
    intros Hc. split; [done|apply not_elem_of_nil].
  - by apply fmap_sublist.
  - unfold Cleaner.reset_index_frame. cbn. by rewrite length_imap.
Qed.

Lemma drop_duplicate_rows_distinct_witness :
  ∃ frames' g,
    Cleaner.drop_duplicate_rows Doubles.cleaner 1%positive
      {[1%positive := Doubles.reviews]} = (Ret 3%positive, frames') ∧
    frames' !! 3%positive = Some g ∧ NoDup (Cleaner.rows g).*2.
Proof.
  assert (Hdf : ({[1%positive := Doubles.reviews]} : Cleaner.Frames) !! 1%positive =
                Some Doubles.reviews) by reflexivity.
  destruct (drop_duplicate_rows_distinct Doubles.cleaner 1%positive
              {[1%positive := Doubles.reviews]} Doubles.reviews Hdf)
    as (l & frames' & g & Hrun & Hl & _ & Hnd & _).
  assert (l = 3%positive) as ->.
  { apply (f_equal fst) in Hrun. vm_compute in Hrun. congruence. }
  exists frames', g. split; [exact Hrun|]. split; [exact Hl|exact Hnd].
Defined.

(** X24.  Cleaning twice is cleaning once: [clean_dataframe] applied to
    the frame it returned gives a new object with the same content, and
    so does [drop_duplicate_rows] applied to the frame it returned. *)
Theorem cleaning_twice (self : Cleaner.DataCleaner) (df : loc)
    (frames : Cleaner.Frames) (f : Cleaner.DataFrame) :
  frames !! df = Some f →
  (∃ l1 frames1 l2 frames2,
     Cleaner.clean_dataframe self df frames = (Ret l1, frames1) ∧
     Cleaner.clean_dataframe self l1 frames1 = (Ret l2, frames2) ∧
     l2 ≠ l1 ∧ frames2 !! l2 = frames1 !! l1 ∧ is_Some (frames1 !! l1)) ∧
  (∃ l1 frames1 l2 frames2,
     Cleaner.drop_duplicate_rows self df frames = (Ret l1, frames1) ∧
     Cleaner.drop_duplicate_rows self l1 frames1 = (Ret l2, frames2) ∧
     l2 ≠ l1 ∧ frames2 !! l2 = frames1 !! l1 ∧ is_Some (frames1 !! l1)).
Proof.
  intros Hdf. split.
  - destruct (two_new_frames frames df f Cleaner.dropna_frame
                Cleaner.reset_index_frame Hdf)
      as (l1 & frames1 & Hrun1 & _ & _ & Hl1 & _).
    destruct (two_new_frames frames1 l1 _ Cleaner.dropna_frame
                Cleaner.reset_index_frame Hl1)
      as (l2 & frames2 & Hrun2 & Hne & _ & Hl2 & _).
    exists l1, frames1, l2, frames2.
    split; [exact Hrun1|]. split; [exact Hrun2|]. split; [exact Hne|].
    split; [|by eexists]. rewrite Hl1, Hl2. f_equal.
    rewrite (dropna_full (Cleaner.reset_index_frame _)); [apply reset_reset|].
    apply (Forall_snd (λ cells, Cleaner.CNaN ∉ cells)). rewrite reset_rows_snd.
    apply (Forall_snd (λ cells, Cleaner.CNaN ∉ cells)), dropna_rows.
  - destruct (two_new_frames frames df f Cleaner.drop_duplicates_frame
                Cleaner.reset_index_frame Hdf)
      as (l1 & frames1 & Hrun1 & _ & _ & Hl1 & _).
    destruct (two_new_frames frames1 l1 _ Cleaner.drop_duplicates_frame
                Cleaner.reset_index_frame Hl1)
      as (l2 & frames2 & Hrun2 & Hne & _ & Hl2 & _).
    exists l1, frames1, l2, frames2.
    split; [exact Hrun1|]. split; [exact Hrun2|]. split; [exact Hne|].
    split; [|by eexists]. rewrite Hl1, Hl2. f_equal.
    rewrite (drop_duplicates_again (Cleaner.reset_index_frame _));
      [apply reset_reset|].
    rewrite reset_rows_snd. unfold Cleaner.drop_duplicates_frame. cbn.
    apply (keep_first_spec (Cleaner.rows f) []).
Qed.

Lemma cleaning_twice_witness :
  ∃ frames1 frames2,
    Cleaner.clean_dataframe Doubles.cleaner 1%positive
      {[1%positive := Doubles.reviews]} = (Ret 3%positive, frames1) ∧
    Cleaner.clean_dataframe Doubles.cleaner 3%positive frames1 =
      (Ret 5%positive, frames2) ∧
    frames2 !! 5%positive = frames1 !! 3%positive.
Proof.
  assert (Hdf : ({[1%positive := Doubles.reviews]} : Cleaner.Frames) !! 1%positive =
                Some Doubles.reviews) by reflexivity.
  destruct (proj1 (cleaning_twice Doubles.cleaner 1%positive
                     {[1%positive := Doubles.reviews]} Doubles.reviews Hdf))
    as (l1 & frames1 & l2 & frames2 & Hrun1 & Hrun2 & _ & Hsame & _).
  assert (l1 = 3%positive) as ->.
  { apply (f_equal fst) in Hrun1. vm_compute in Hrun1. congruence. }
  assert (frames1 =
          (Cleaner.clean_dataframe Doubles.cleaner 1%positive
             {[1%positive := Doubles.reviews]}).2) as Hf1
    by (by rewrite Hrun1).
  assert (l2 = 5%positive) as ->.
  { apply (f_equal fst) in Hrun2. rewrite Hf1 in Hrun2.
    vm_compute in Hrun2. congruence. }
  exists frames1, frames2. split; [exact Hrun1|]. split; [exact Hrun2|exact Hsame].
Defined.

(** X25.  [fill_missing_values] knows the strategies mean, median and
    mode, written so; any other strategy is a [ValueError] and no frame
    is made.  Whatever the strategy and the outcome, the frames that
    existed before the call are as they were: the result is a new
    frame. *)
Theorem fill_missing_values_strategy `{Fill.PandasLib}
    (self : Cleaner.DataCleaner) (df : loc) (strategy : string)
    (frames : Cleaner.Frames) :
  let run := Fill.fill_missing_values self df strategy frames in
  (strategy ∉ ["mean"; "median"; "mode"] →
   run = (Raise (mkExn ValueError ("Unsupported fill strategy: " +:+ strategy)),
          frames)) ∧
  (∀ l f, frames !! l = Some f → run.2 !! l = Some f) ∧
  (∀ l, run.1 = Ret l → frames !! l = None).
Proof.
  intros run.
  assert (Hnew : ∀ (o : Outcome Cleaner.DataFrame),
            let r := (lift o ≫= Cleaner.new_frame) frames in
            (∀ l f, frames !! l = Some f → r.2 !! l = Some f) ∧
            (∀ l, r.1 = Ret l → frames !! l = None)).
  { intros o. rewrite bind_unfold. unfold lift.
    destruct o as [g|e|]; cbn; [|done|done].
    assert (Hfresh : frames !! fresh (dom frames) = None)
      by apply not_elem_of_dom, is_fresh.
    split.
    - intros l f Hl. rewrite lookup_insert_ne; [done|]. intros <-. congruence.
    - by intros l [= <-]. }
  unfold run, Fill.fill_missing_values, Cleaner.read_frame, gets.
  split.
  - rewrite !not_elem_of_cons. intros (Hmean & Hmedian & Hmode & _).
    destruct (String.eqb_spec strategy "mean"); [done|].
    destruct (String.eqb_spec strategy "median"); [done|].
    destruct (String.eqb_spec strategy "mode"); [done|]. reflexivity.
  - destruct (String.eqb strategy "mean");
      [rewrite bind_unfold; apply Hnew|].
    destruct (String.eqb strategy "median");
      [rewrite bind_unfold; apply Hnew|].
    destruct (String.eqb strategy "mode");
      [rewrite bind_unfold; apply Hnew|].
    cbn. done.
Qed.

Lemma fill_missing_values_strategy_witness :
  let frames : Cleaner.Frames := {[1%positive := Doubles.reviews]} in
  @Fill.fill_missing_values Doubles2.pandas_double Doubles.cleaner 1%positive
    "average" frames =
    (Raise (mkExn ValueError "Unsupported fill strategy: average"), frames) ∧
  (@Fill.fill_missing_values Doubles2.pandas_double Doubles.cleaner 1%positive
     "mean" frames).2 !! 1%positive = Some Doubles.reviews.
Proof.
  intros frames.
  destruct (@fill_missing_values_strategy Doubles2.pandas_double
              Doubles.cleaner 1%positive "average" frames) as [Hbad _].
  destruct (@fill_missing_values_strategy Doubles2.pandas_double
              Doubles.cleaner 1%positive "mean" frames) as (_ & Hkeep & _).
  split.
  - apply Hbad. rewrite !not_elem_of_cons. repeat split; try discriminate.
    apply not_elem_of_nil.
  - apply Hkeep. reflexivity.
Defined.
